(** * WebhookClient: the Dialogflow fulfillment adapter

    A shallow embedding of [src/dialogflow-fulfillment-client.ts].

    The class wraps a parsed webhook request and accumulates a webhook
    response.  Three features of the source shape the model:

    - field reads go through optional chaining ([?.]) and nullish
      coalescing ([?? null]), so every field is three-valued
      (absent, [null], or a value);
    - the constructor stores the request's own [fulfillmentMessages] and
      [outputContexts] arrays into the response (an assignment of
      references, not a copy of elements), so arrays live in a store and
      both payloads hold references into it;
    - [addContext] and [handleRequest] can throw, so methods return an
      outcome next to the state they leave behind. *)

From stdpp Require Import base strings list gmap.
From Stdlib Require Import ZArith QArith.

#[local] Set Warnings "-register-all".

Local Open Scope Z_scope.
Local Open Scope string_scope.
Local Open Scope list_scope.

(** ** JavaScript values *)

(** A property or variable: absent ([undefined]), [null], or a value. *)
Inductive Nullable (A : Type) : Type :=
| Undefined
| Null
| Val (a : A).
Arguments Undefined {A}.
Arguments Null {A}.
Arguments Val {A} a.

(** [x?.f]: reading field [f] through an optional chain.  A nullish
    receiver short-circuits to [undefined]. *)
Definition optChain {A B : Type} (x : Nullable A) (f : A -> Nullable B) : Nullable B :=
  match x with
  | Val a => f a
  | _ => Undefined
  end.

(** [x ?? null]: a nullish left operand yields the [null] sentinel. *)
Definition orNull {A : Type} (x : Nullable A) : Nullable A :=
  match x with
  | Val a => Val a
  | _ => Null
  end.

Notation "x ?. f" := (optChain x f) (at level 50, left associativity, only parsing).

(** JavaScript numbers (finite ones). *)
Definition number := Q.

(** The values that can reach [add] at run time.  Arrays hold arbitrary
    elements.  Any other object is represented by what [add] does with
    it: it reads its [length], a number when present, and it runs a
    [for ... of] loop over it.  [iteration] is what that loop goes
    through: [Some elems] when the loop runs, over [elems] in order (a
    [String] object, a typed array, a [Buffer]), [None] when the object
    cannot be looped over and the loop throws (a plain object under a
    native [for ... of]). *)
Inductive JsValue : Type :=
| JsUndefined
| JsNull
| JsBoolean (b : bool)
| JsNumber (n : number)
| JsString (s : string)
| JsArray (elems : list JsValue)
| JsObject (length : option number) (iteration : option (list JsValue)).

(** ** Errors and outcomes *)

Inductive JsError : Type :=
| TypeError (message : string).

Inductive Outcome : Type :=
| Completed
| Thrown (e : JsError).

(** ** The webhook payloads *)

(** Arrays are objects with identity; payloads hold references. *)
Definition ref := positive.

(** [google.cloud.dialogflow.v2.Intent.IMessage].  The client itself only
    ever builds the text variant, [{ text: { text: [...] } }]; messages
    echoed by the platform may be of any other variant. *)
Inductive Message : Type :=
| TextMessage (text : list JsValue)
| RichMessage (variant : string) (content : JsValue).

(** [google.cloud.dialogflow.v2.Context]. *)
Record Context : Type := mkContext {
  name : Nullable string;
  lifespanCount : Nullable number;
  contextParameters : Nullable JsValue;
}.

Record Intent : Type := mkIntent {
  intentName : Nullable string;
  displayName : Nullable string;
}.

Record QueryResult : Type := mkQueryResult {
  queryText : Nullable string;
  qr_parameters : Nullable JsValue;
  qr_allRequiredParamsPresent : Nullable bool;
  qr_fulfillmentText : Nullable string;
  qr_fulfillmentMessages : Nullable ref;
  qr_outputContexts : Nullable ref;
  qr_intent : Nullable Intent;
  qr_intentDetectionConfidence : Nullable number;
  qr_diagnosticInfo : Nullable JsValue;
  qr_languageCode : Nullable string;
}.

(** [google.cloud.dialogflow.v2.WebhookRequest], the parsed request body. *)
Record WebhookRequest : Type := mkWebhookRequest {
  wr_responseId : Nullable string;
  wr_session : Nullable string;
  queryResult : Nullable QueryResult;
  wr_originalDetectIntentRequest : Nullable JsValue;
}.

(** [google.cloud.dialogflow.v2.WebhookResponse], as far as the client
    writes it. *)
Record WebhookResponse : Type := mkWebhookResponse {
  resp_fulfillmentMessages : Nullable ref;
  resp_outputContexts : Nullable ref;
}.

(** The Express request, as far as the constructor reads it. *)
Record Request : Type := mkRequest {
  body : Nullable WebhookRequest;
}.

(** The instance fields of [WebhookClient]. *)
Record WebhookClient : Type := mkWebhookClient {
  webhookRequestBody : Nullable WebhookRequest;
  webhookResponseBody : WebhookResponse;
}.

(** The array objects reachable from either payload. *)
Record Store : Type := mkStore {
  messageArrays : gmap ref (list Message);
  contextArrays : gmap ref (list Context);
}.

(** A client together with the arrays it can reach. *)
Record State : Type := mkState {
  store : Store;
  client : WebhookClient;
}.

(** Reading the array behind a reference-valued field. *)
Definition derefMessages (s : Store) (r : Nullable ref) : Nullable (list Message) :=
  match r with
  | Val l => match messageArrays s !! l with
             | Some ms => Val ms
             | None => Undefined
             end
  | Null => Null
  | Undefined => Undefined
  end.

Definition derefContexts (s : Store) (r : Nullable ref) : Nullable (list Context) :=
  match r with
  | Val l => match contextArrays s !! l with
             | Some cs => Val cs
             | None => Undefined
             end
  | Null => Null
  | Undefined => Undefined
  end.

(** ** Constructor *)

(** [this.webhookRequestBody.queryResult] is read without a guard on the
    body, so a request without a parsed body makes the constructor throw. *)
Definition construct (request : Request) : Outcome * option WebhookClient :=
  match body request with
  | Val b =>
      (Completed,
       Some {| webhookRequestBody := Val b;
               webhookResponseBody :=
                 {| resp_fulfillmentMessages := queryResult b ?. qr_fulfillmentMessages;
                    resp_outputContexts := queryResult b ?. qr_outputContexts |} |})
  | Undefined =>
      (Thrown (TypeError "Cannot read properties of undefined (reading 'queryResult')"), None)
  | Null =>
      (Thrown (TypeError "Cannot read properties of null (reading 'queryResult')"), None)
  end.

(** ** Read accessors *)

Section Accessors.
Variable this : WebhookClient.

Definition responseId : Nullable string :=
  orNull (webhookRequestBody this ?. wr_responseId).

Definition session : Nullable string :=
  orNull (webhookRequestBody this ?. wr_session).

Definition query : Nullable string :=
  orNull (webhookRequestBody this ?. queryResult ?. queryText).

Definition parameters : Nullable JsValue :=
  orNull (webhookRequestBody this ?. queryResult ?. qr_parameters).

Definition allRequiredParamsPresent : Nullable bool :=
  orNull (webhookRequestBody this ?. queryResult ?. qr_allRequiredParamsPresent).

Definition fulfillmentText : Nullable string :=
  orNull (webhookRequestBody this ?. queryResult ?. qr_fulfillmentText).

(** The two array-valued accessors return the array object itself. *)
Definition fulfillmentMessages : Nullable ref :=
  orNull (webhookRequestBody this ?. queryResult ?. qr_fulfillmentMessages).

Definition outputContexts : Nullable ref :=
  orNull (webhookRequestBody this ?. queryResult ?. qr_outputContexts).

Definition intent : Nullable Intent :=
  orNull (webhookRequestBody this ?. queryResult ?. qr_intent).

Definition intentDetectionConfidence : Nullable number :=
  orNull (webhookRequestBody this ?. queryResult ?. qr_intentDetectionConfidence).

Definition diagnosticInfo : Nullable JsValue :=
  orNull (webhookRequestBody this ?. queryResult ?. qr_diagnosticInfo).

Definition languageCode : Nullable string :=
  orNull (webhookRequestBody this ?. queryResult ?. qr_languageCode).

Definition originalDetectIntentRequest : Nullable JsValue :=
  orNull (webhookRequestBody this ?. wr_originalDetectIntentRequest).
End Accessors.

(** What a caller sees when it reads the array accessors: the elements
    currently held by the returned array. *)
Definition fulfillmentMessagesSeen (st : State) : Nullable (list Message) :=
  orNull (derefMessages (store st) (fulfillmentMessages (client st))).

Definition outputContextsSeen (st : State) : Nullable (list Context) :=
  orNull (derefContexts (store st) (outputContexts (client st))).

(** ** Mutation operations *)

(** Every method leaves a state behind, whether it returns or throws. *)
Definition Method := State -> Outcome * State.

Definition withMessages (st : State) (f : gmap ref (list Message) -> gmap ref (list Message))
    : State :=
  {| store := {| messageArrays := f (messageArrays (store st));
                 contextArrays := contextArrays (store st) |};
     client := client st |}.

Definition withContexts (st : State) (f : gmap ref (list Context) -> gmap ref (list Context))
    : State :=
  {| store := {| messageArrays := messageArrays (store st);
                 contextArrays := f (contextArrays (store st)) |};
     client := client st |}.

Definition withResponse (st : State) (r : WebhookResponse) : State :=
  {| store := store st;
     client := {| webhookRequestBody := webhookRequestBody (client st);
                  webhookResponseBody := r |} |}.

(** [this.webhookResponseBody.fulfillmentMessages?.push(m)]: the push is
    skipped when the field is nullish. *)
Definition pushMessage (m : Message) (st : State) : State :=
  match resp_fulfillmentMessages (webhookResponseBody (client st)) with
  | Val l => withMessages st (alter (fun ms => ms ++ [m]) l)
  | _ => st
  end.

(** [obj?.length] *)
Definition lengthOf (obj : JsValue) : Nullable number :=
  match obj with
  | JsArray elems => Val (inject_Z (Z.of_nat (List.length elems)))
  | JsString s => Val (inject_Z (Z.of_nat (String.length s)))
  | JsObject (Some n) _ => Val n
  | _ => Undefined
  end.

(** [x > 0]: [undefined] compares as NaN, which is not greater than 0. *)
Definition greaterThanZero (x : Nullable number) : bool :=
  match x with
  | Val n => (0 <? Qnum n)%Z
  | _ => false
  end.

Definition isStringArray (obj : JsValue) : bool :=
  greaterThanZero (lengthOf obj).

Definition textMessage (response : JsValue) : Message :=
  TextMessage [response].

Definition add (response : JsValue) : Method := fun st =>
  match response with
  | JsString _ => (Completed, pushMessage (textMessage response) st)
  | _ =>
      if isStringArray response then
        match response with
        | JsArray elems | JsObject _ (Some elems) =>
            (Completed,
             foldl (fun acc responseText => pushMessage (textMessage responseText) acc)
                   st elems)
        | _ => (Thrown (TypeError "response is not iterable"), st)
        end
      else (Completed, st)
  end.

(** [this.webhookResponseBody.fulfillmentMessages = []]: a new, empty
    array object replaces whatever the field referred to. *)
Definition clearFulfillments : Method := fun st =>
  let l := fresh (dom (messageArrays (store st))) in
  (Completed,
   withResponse (withMessages st (insert l []))
     {| resp_fulfillmentMessages := Val l;
        resp_outputContexts := resp_outputContexts (webhookResponseBody (client st)) |}).

(** The argument of [addContext] at run time.  The [instanceof] test
    singles out the instances of the [Context] class; any other
    argument is spread into [push].  An array spreads into its
    elements; a single record that is not a [Context] instance (an
    object literal, a context taken from the request body) cannot be
    spread. *)
Inductive ContextArg : Type :=
| OneContext (c : Context)
| ContextArray (cs : list Context)
| PlainRecord (c : Context).

(** [this.webhookResponseBody.outputContexts.push(items...)]: no guard,
    so reading [push] off a nullish field throws. *)
Definition pushContexts (items : list Context) : Method := fun st =>
  match resp_outputContexts (webhookResponseBody (client st)) with
  | Val l => (Completed, withContexts st (alter (fun cs => cs ++ items) l))
  | Undefined =>
      (Thrown (TypeError "Cannot read properties of undefined (reading 'push')"), st)
  | Null =>
      (Thrown (TypeError "Cannot read properties of null (reading 'push')"), st)
  end.

(** [this.webhookResponseBody.outputContexts.push(...context)] for a
    [context] that cannot be spread: [push] is read first, as above,
    and then the spread throws before anything is pushed. *)
Definition pushUnspreadable : Method := fun st =>
  match resp_outputContexts (webhookResponseBody (client st)) with
  | Val _ =>
      (Thrown (TypeError
                 "Spread syntax requires ...iterable[Symbol.iterator] to be a function"),
       st)
  | Undefined =>
      (Thrown (TypeError "Cannot read properties of undefined (reading 'push')"), st)
  | Null =>
      (Thrown (TypeError "Cannot read properties of null (reading 'push')"), st)
  end.

Definition addContext (context : ContextArg) : Method :=
  match context with
  | OneContext c => pushContexts [c]
  | ContextArray cs => pushContexts cs
  | PlainRecord _ => pushUnspreadable
  end.

Definition clearContexts : Method := fun st =>
  let l := fresh (dom (contextArrays (store st))) in
  (Completed,
   withResponse (withContexts st (insert l []))
     {| resp_fulfillmentMessages := resp_fulfillmentMessages (webhookResponseBody (client st));
        resp_outputContexts := Val l |}).

(** The outbound sequences, read through the response's references. *)
Definition outboundMessages (st : State) : Nullable (list Message) :=
  derefMessages (store st) (resp_fulfillmentMessages (webhookResponseBody (client st))).

Definition outboundContexts (st : State) : Nullable (list Context) :=
  derefContexts (store st) (resp_outputContexts (webhookResponseBody (client st))).

(** ** Delivery *)

(** What [response.send(this.webhookResponseBody)] puts on the wire: the
    two fields with the current contents of their arrays.  An
    [Undefined] field is left out of the JSON body. *)
Record Payload : Type := mkPayload {
  sentMessages : Nullable (list Message);
  sentContexts : Nullable (list Context);
}.

Definition serialize (st : State) : Payload :=
  {| sentMessages := outboundMessages st;
     sentContexts := outboundContexts st |}.

(** ** Handlers *)

(** The calls a handler can make on the agent it receives. *)
Inductive Call : Type :=
| CallAdd (response : JsValue)
| CallClearFulfillments
| CallAddContext (context : ContextArg)
| CallClearContexts.

Definition perform (c : Call) : Method :=
  match c with
  | CallAdd response => add response
  | CallClearFulfillments => clearFulfillments
  | CallAddContext context => addContext context
  | CallClearContexts => clearContexts
  end.

(** A handler [(agent) => ...], as the script of what it does with the
    agent until the value it returns settles: it reads the agent's
    state, calls the agent's methods, awaits asynchronous tasks of its
    own, and in the end returns (its promise fulfils) or throws (its
    promise rejects).  An exception thrown by a method call is not caught
    by the handler.  Handlers that go around these methods (that send on
    [agent.response] themselves, or write into the request body) are
    not covered. *)
Inductive Handler : Type :=
| Return
| Raise (e : JsError)
| Await (k : Handler)
| Invoke (c : Call) (k : Handler)
| Inspect (k : State -> Handler).

(** What can be observed from outside, in order of occurrence. *)
Inductive Event : Type :=
| Suspended
| Called (c : Call)
| Settled (o : Outcome)
| Sent (p : Payload).

Fixpoint runHandler (h : Handler) (st : State) : Outcome * State * list Event :=
  match h with
  | Return => (Completed, st, [Settled Completed])
  | Raise e => (Thrown e, st, [Settled (Thrown e)])
  | Await k =>
      let '(o, st', evs) := runHandler k st in
      (o, st', Suspended :: evs)
  | Invoke c k =>
      match perform c st with
      | (Completed, st1) =>
          let '(o, st', evs) := runHandler k st1 in
          (o, st', Called c :: evs)
      | (Thrown e, st1) => (Thrown e, st1, [Called c; Settled (Thrown e)])
      end
  | Inspect k => runHandler (k st) st
  end.

(** ** Dispatch *)

(** What a property of the intent map holds. *)
Inductive MapValue : Type :=
| Function (h : Handler)
| NotCallable.

(** The intent map is a JavaScript object: [intentMap[key]] finds an
    own property first and an inherited one otherwise. *)
Record IntentMap : Type := mkIntentMap {
  own : gmap string MapValue;
  inherited : gmap string MapValue;
}.

Definition getProperty (intentMap : IntentMap) (key : string) : option MapValue :=
  match own intentMap !! key with
  | Some v => Some v
  | None => inherited intentMap !! key
  end.

(** A nullish value used as a property key is converted to a string. *)
Definition toPropertyKey (x : Nullable string) : string :=
  match x with
  | Val s => s
  | Null => "null"
  | Undefined => "undefined"
  end.

(** [this.webhookRequestBody?.queryResult?.intent?.displayName] *)
Definition detectedIntent (this : WebhookClient) : Nullable string :=
  webhookRequestBody this ?. queryResult ?. qr_intent ?. displayName.

Definition handleRequest (intentMap : IntentMap) (st : State)
    : Outcome * State * list Event :=
  match getProperty intentMap (toPropertyKey (detectedIntent (client st))) with
  | Some (Function h) =>
      match runHandler h st with
      | (Completed, st', evs) => (Completed, st', evs ++ [Sent (serialize st')])
      | (Thrown e, st', evs) => (Thrown e, st', evs)
      end
  | _ => (Thrown (TypeError "intentMap[(intermediate value)] is not a function"), st, [])
  end.

(** What an object literal inherits from [Object.prototype], by what a
    call with the agent as sole argument does: the methods below return
    a value without touching the agent; [__defineGetter__] and
    [__defineSetter__] reject their missing second argument; [__proto__]
    is an object, not a function.  ([toLocaleString] calls the
    receiver's [toString]; its entry is for maps that define none.) *)
Definition objectPrototype : gmap string MapValue :=
  list_to_map
    [ ("constructor", Function Return);
      ("hasOwnProperty", Function Return);
      ("isPrototypeOf", Function Return);
      ("propertyIsEnumerable", Function Return);
      ("toLocaleString", Function Return);
      ("toString", Function Return);
      ("valueOf", Function Return);
      ("__lookupGetter__", Function Return);
      ("__lookupSetter__", Function Return);
      ("__defineGetter__",
        Function (Raise (TypeError "Object.prototype.__defineGetter__: Expecting function")));
      ("__defineSetter__",
        Function (Raise (TypeError "Object.prototype.__defineSetter__: Expecting function")));
      ("__proto__", NotCallable) ].

(** [{ k1: h1, k2: h2, ... }] *)
Definition objectLiteral (handlers : list (string * Handler)) : IntentMap :=
  {| own := list_to_map (prod_map id Function <$> handlers);
     inherited := objectPrototype |}.

(** The payloads a run delivered, in order. *)
Definition deliveries (evs : list Event) : list Payload :=
  omap (fun e => match e with Sent p => Some p | _ => None end) evs.

Definition callsOf (evs : list Event) : list Call :=
  omap (fun e => match e with Called c => Some c | _ => None end) evs.

(** A sequence of mutation calls, made one after the other; the first
    exception ends it. *)
Fixpoint performAll (cs : list Call) (st : State) : Outcome * State :=
  match cs with
  | [] => (Completed, st)
  | c :: cs' =>
      match perform c st with
      | (Completed, st1) => performAll cs' st1
      | (Thrown e, st1) => (Thrown e, st1)
      end
  end.

(** ** Vocabulary for the statements *)

Definition nullish {A : Type} (x : Nullable A) : Prop :=
  x = Undefined \/ x = Null.

(** The thirteen getters of the class. *)
Inductive Accessor : Type :=
| GetResponseId
| GetSession
| GetQuery
| GetParameters
| GetAllRequiredParamsPresent
| GetFulfillmentText
| GetFulfillmentMessages
| GetOutputContexts
| GetIntent
| GetIntentDetectionConfidence
| GetDiagnosticInfo
| GetLanguageCode
| GetOriginalDetectIntentRequest.

Definition returnsNull (a : Accessor) (this : WebhookClient) : Prop :=
  match a with
  | GetResponseId => responseId this = Null
  | GetSession => session this = Null
  | GetQuery => query this = Null
  | GetParameters => parameters this = Null
  | GetAllRequiredParamsPresent => allRequiredParamsPresent this = Null
  | GetFulfillmentText => fulfillmentText this = Null
  | GetFulfillmentMessages => fulfillmentMessages this = Null
  | GetOutputContexts => outputContexts this = Null
  | GetIntent => intent this = Null
  | GetIntentDetectionConfidence => intentDetectionConfidence this = Null
  | GetDiagnosticInfo => diagnosticInfo this = Null
  | GetLanguageCode => languageCode this = Null
  | GetOriginalDetectIntentRequest => originalDetectIntentRequest this = Null
  end.

Definition returnsUndefined (a : Accessor) (this : WebhookClient) : Prop :=
  match a with
  | GetResponseId => responseId this = Undefined
  | GetSession => session this = Undefined
  | GetQuery => query this = Undefined
  | GetParameters => parameters this = Undefined
  | GetAllRequiredParamsPresent => allRequiredParamsPresent this = Undefined
  | GetFulfillmentText => fulfillmentText this = Undefined
  | GetFulfillmentMessages => fulfillmentMessages this = Undefined
  | GetOutputContexts => outputContexts this = Undefined
  | GetIntent => intent this = Undefined
  | GetIntentDetectionConfidence => intentDetectionConfidence this = Undefined
  | GetDiagnosticInfo => diagnosticInfo this = Undefined
  | GetLanguageCode => languageCode this = Undefined
  | GetOriginalDetectIntentRequest => originalDetectIntentRequest this = Undefined
  end.

(** The getters whose chain goes through [queryResult]. *)
Definition throughQueryResult (a : Accessor) : bool :=
  match a with
  | GetResponseId | GetSession | GetOriginalDetectIntentRequest => false
  | _ => true
  end.

(** The chain a getter reads ends in nothing. *)
Definition pathMissing (a : Accessor) (this : WebhookClient) : Prop :=
  let b := webhookRequestBody this in
  match a with
  | GetResponseId => nullish (b ?. wr_responseId)
  | GetSession => nullish (b ?. wr_session)
  | GetQuery => nullish (b ?. queryResult ?. queryText)
  | GetParameters => nullish (b ?. queryResult ?. qr_parameters)
  | GetAllRequiredParamsPresent => nullish (b ?. queryResult ?. qr_allRequiredParamsPresent)
  | GetFulfillmentText => nullish (b ?. queryResult ?. qr_fulfillmentText)
  | GetFulfillmentMessages => nullish (b ?. queryResult ?. qr_fulfillmentMessages)
  | GetOutputContexts => nullish (b ?. queryResult ?. qr_outputContexts)
  | GetIntent => nullish (b ?. queryResult ?. qr_intent)
  | GetIntentDetectionConfidence => nullish (b ?. queryResult ?. qr_intentDetectionConfidence)
  | GetDiagnosticInfo => nullish (b ?. queryResult ?. qr_diagnosticInfo)
  | GetLanguageCode => nullish (b ?. queryResult ?. qr_languageCode)
  | GetOriginalDetectIntentRequest => nullish (b ?. wr_originalDetectIntentRequest)
  end.

(** Everything the getters return that is not an array: eleven values. *)
Record Readings : Type := mkReadings {
  readResponseId : Nullable string;
  readSession : Nullable string;
  readQuery : Nullable string;
  readParameters : Nullable JsValue;
  readAllRequiredParamsPresent : Nullable bool;
  readFulfillmentText : Nullable string;
  readIntent : Nullable Intent;
  readIntentDetectionConfidence : Nullable number;
  readDiagnosticInfo : Nullable JsValue;
  readLanguageCode : Nullable string;
  readOriginalDetectIntentRequest : Nullable JsValue;
}.

Definition readings (this : WebhookClient) : Readings :=
  {| readResponseId := responseId this;
     readSession := session this;
     readQuery := query this;
     readParameters := parameters this;
     readAllRequiredParamsPresent := allRequiredParamsPresent this;
     readFulfillmentText := fulfillmentText this;
     readIntent := intent this;
     readIntentDetectionConfidence := intentDetectionConfidence this;
     readDiagnosticInfo := diagnosticInfo this;
     readLanguageCode := languageCode this;
     readOriginalDetectIntentRequest := originalDetectIntentRequest this |}.

(** The arrays of the request exist in the store. *)
Definition inboundAllocated (st : State) : Prop :=
  (forall l, fulfillmentMessages (client st) = Val l ->
             l ∈ dom (messageArrays (store st)))
  /\ (forall l, outputContexts (client st) = Val l ->
                l ∈ dom (contextArrays (store st))).

(** The response's message array is not the request's. *)
Definition messagesDetached (st : State) : Prop :=
  forall l, resp_fulfillmentMessages (webhookResponseBody (client st)) = Val l ->
            fulfillmentMessages (client st) <> Val l.

Definition contextsDetached (st : State) : Prop :=
  forall l, resp_outputContexts (webhookResponseBody (client st)) = Val l ->
            outputContexts (client st) <> Val l.

(** Arguments [add] is declared for. *)
Definition isString (x : JsValue) : bool :=
  match x with
  | JsString _ => true
  | _ => false
  end.

Definition isStringSequence (x : JsValue) : bool :=
  match x with
  | JsArray elems => forallb isString elems
  | _ => false
  end.

(** Arguments [add] falls through on: the empty array, and the values
    that are neither a string nor an array and have no [length] greater
    than 0. *)
Definition ignoredByAdd (x : JsValue) : Prop :=
  match x with
  | JsArray elems => elems = []
  | JsUndefined | JsNull | JsBoolean _ | JsNumber _ | JsObject None _ => True
  | JsObject (Some n) _ => ~ (0 < n)%Q
  | JsString _ => False
  end.

(** ** Sample data *)

Module Sample.

Definition welcomeCard : Message :=
  RichMessage "card" (JsString "Welcome card").

Definition sessionContext : Context :=
  {| name := Val "projects/p/agent/sessions/s/contexts/booking";
     lifespanCount := Val (5 # 1);
     contextParameters := Undefined |}.

Definition followupContext : Context :=
  {| name := Val "projects/p/agent/sessions/s/contexts/followup";
     lifespanCount := Val (2 # 1);
     contextParameters := Null |}.

(** A request as the platform sends it: one echoed message and one
    active context. *)
Definition startQuery : QueryResult :=
  {| queryText := Val "hi";
     qr_parameters := Undefined;
     qr_allRequiredParamsPresent := Val true;
     qr_fulfillmentText := Val "";
     qr_fulfillmentMessages := Val 1%positive;
     qr_outputContexts := Val 1%positive;
     qr_intent := Val {| intentName := Val "projects/p/agent/intents/1";
                         displayName := Val "Start" |};
     qr_intentDetectionConfidence := Val (1 # 1);
     qr_diagnosticInfo := Undefined;
     qr_languageCode := Val "en" |}.

Definition startBody : WebhookRequest :=
  {| wr_responseId := Val "r-1";
     wr_session := Val "projects/p/agent/sessions/s";
     queryResult := Val startQuery;
     wr_originalDetectIntentRequest := Undefined |}.

Definition startStore : Store :=
  {| messageArrays := {[ 1%positive := [welcomeCard] ]};
     contextArrays := {[ 1%positive := [sessionContext] ]} |}.

Definition startState : State :=
  {| store := startStore;
     client := {| webhookRequestBody := Val startBody;
                  webhookResponseBody :=
                    {| resp_fulfillmentMessages := Val 1%positive;
                       resp_outputContexts := Val 1%positive |} |} |}.

(** A body with identifiers only: no [queryResult]. *)
Definition bareBody : WebhookRequest :=
  {| wr_responseId := Val "r-1";
     wr_session := Val "projects/p/agent/sessions/s";
     queryResult := Undefined;
     wr_originalDetectIntentRequest := Undefined |}.

Definition emptyStore : Store :=
  {| messageArrays := ∅; contextArrays := ∅ |}.

Definition bareState : State :=
  {| store := emptyStore;
     client := {| webhookRequestBody := Val bareBody;
                  webhookResponseBody :=
                    {| resp_fulfillmentMessages := Undefined;
                       resp_outputContexts := Undefined |} |} |}.

(** A request whose detected intent is named like a method every
    object inherits. *)
Definition toStringBody : WebhookRequest :=
  {| wr_responseId := Val "r-2";
     wr_session := Val "projects/p/agent/sessions/s";
     queryResult :=
       Val {| queryText := Val "hi";
              qr_parameters := Undefined;
              qr_allRequiredParamsPresent := Val true;
              qr_fulfillmentText := Val "";
              qr_fulfillmentMessages := Val 1%positive;
              qr_outputContexts := Val 1%positive;
              qr_intent := Val {| intentName := Undefined;
                                  displayName := Val "toString" |};
              qr_intentDetectionConfidence := Val (1 # 1);
              qr_diagnosticInfo := Undefined;
              qr_languageCode := Val "en" |};
     wr_originalDetectIntentRequest := Undefined |}.

Definition toStringState : State :=
  {| store := startStore;
     client := {| webhookRequestBody := Val toStringBody;
                  webhookResponseBody :=
                    {| resp_fulfillmentMessages := Val 1%positive;
                       resp_outputContexts := Val 1%positive |} |} |}.

(** [{ Start: (agent) => agent.add("Welcome") }] *)
Definition startMap : IntentMap :=
  objectLiteral [("Start", Invoke (CallAdd (JsString "Welcome")) Return)].

(** [{ Start: async (agent) => { await someAsyncTask(); agent.add("Welcome") } }] *)
Definition asyncStartMap : IntentMap :=
  objectLiteral [("Start", Await (Invoke (CallAdd (JsString "Welcome")) Return))].

End Sample.

(** ** Vocabulary for sequences of calls *)

(** The records an [addContext] call gets pushed: none for a record
    that cannot be spread. *)
Definition contextsOf (context : ContextArg) : list Context :=
  match context with
  | OneContext c => [c]
  | ContextArray cs => cs
  | PlainRecord _ => []
  end.

(** The arguments the parameter type of [addContext] declares. *)
Definition isDeclaredContextArg (context : ContextArg) : bool :=
  match context with
  | OneContext _ | ContextArray _ => true
  | PlainRecord _ => false
  end.

(** The messages an [add] call pushes when it returns: one for a
    string, one per element for an array, one per element the loop
    goes through for another object that passes the length test, none
    otherwise. *)
Definition messagesAdded (response : JsValue) : list Message :=
  match response with
  | JsString _ => [textMessage response]
  | JsArray elems => textMessage <$> elems
  | JsObject (Some n) (Some elems) =>
      if greaterThanZero (Val n) then textMessage <$> elems else []
  | _ => []
  end.

(** The arguments on which [add] throws: objects that pass the length
    test and cannot be looped over. *)
Definition addThrows (response : JsValue) : bool :=
  match response with
  | JsObject (Some n) None => greaterThanZero (Val n)
  | _ => false
  end.

(** A handler that makes the given calls one after the other and then
    returns: [(agent) => { agent.m1(...); agent.m2(...); ... }]. *)
Fixpoint script (cs : list Call) : Handler :=
  match cs with
  | [] => Return
  | c :: cs' => Invoke c (script cs')
  end.

Definition isClearContexts (c : Call) : bool :=
  match c with
  | CallClearContexts => true
  | _ => false
  end.

(** ** More sample data *)

Module Scenario.

(** A request whose [queryResult] names an intent and carries neither
    messages nor contexts. *)
Definition plainBody : WebhookRequest :=
  {| wr_responseId := Val "r-3";
     wr_session := Val "projects/p/agent/sessions/s";
     queryResult :=
       Val {| queryText := Val "book a ticket";
              qr_parameters := Undefined;
              qr_allRequiredParamsPresent := Val true;
              qr_fulfillmentText := Undefined;
              qr_fulfillmentMessages := Null;
              qr_outputContexts := Undefined;
              qr_intent := Val {| intentName := Undefined;
                                  displayName := Val "Start" |};
              qr_intentDetectionConfidence := Undefined;
              qr_diagnosticInfo := Undefined;
              qr_languageCode := Val "en" |};
     wr_originalDetectIntentRequest := Undefined |}.

Definition plainState : State :=
  {| store := Sample.emptyStore;
     client := {| webhookRequestBody := Val plainBody;
                  webhookResponseBody :=
                    {| resp_fulfillmentMessages := Null;
                       resp_outputContexts := Undefined |} |} |}.

(** [{ Start: (agent) => { agent.add("partial"); throw new TypeError("boom") } }] *)
Definition failingMap : IntentMap :=
  objectLiteral
    [("Start", Invoke (CallAdd (JsString "partial")) (Raise (TypeError "boom")))].

(** [{ Start: (agent) => { agent.add("Booked"); agent.addContext(ctx) } }] *)
Definition bookingCalls : list Call :=
  [CallAdd (JsString "Booked"); CallAddContext (OneContext Sample.followupContext)].

Definition bookingMap : IntentMap :=
  objectLiteral [("Start", script bookingCalls)].

(** [{ undefined: (agent) => agent.add("Sorry?") }] *)
Definition fallbackMap : IntentMap :=
  objectLiteral [("undefined", Invoke (CallAdd (JsString "Sorry?")) Return)].

(** [{ Start: async (agent) => { await lookup() } }]: reads, waits,
    calls nothing. *)
Definition idleMap : IntentMap :=
  objectLiteral [("Start", Await (Inspect (fun _ => Return)))].

(** Two requests in flight: the arrays of the first are numbered 1,
    those of the second 2. *)
Definition otherCard : Message :=
  RichMessage "quickReplies" (JsArray [JsString "yes"; JsString "no"]).

Definition twoRequestsStore : Store :=
  {| messageArrays := {[ 1%positive := [Sample.welcomeCard]; 2%positive := [otherCard] ]};
     contextArrays := {[ 1%positive := [Sample.sessionContext];
                         2%positive := [Sample.followupContext] ]} |}.

Definition firstState : State :=
  {| store := twoRequestsStore; client := client Sample.startState |}.

Definition otherClient : WebhookClient :=
  {| webhookRequestBody := Val Sample.bareBody;
     webhookResponseBody :=
       {| resp_fulfillmentMessages := Val 2%positive;
          resp_outputContexts := Val 2%positive |} |}.

End Scenario.

(** * Properties *)

(** ** The sample data is what the constructor builds *)

Example construct_start :
  construct {| body := Val Sample.startBody |}
  = (Completed, Some (client Sample.startState)).
Proof. reflexivity. Qed.

Example construct_bare :
  construct {| body := Val Sample.bareBody |}
  = (Completed, Some (client Sample.bareState)).
Proof. reflexivity. Qed.

Example construct_toString :
  construct {| body := Val Sample.toStringBody |}
  = (Completed, Some (client Sample.toStringState)).
Proof. reflexivity. Qed.

Example construct_without_body :
  construct {| body := Undefined |}
  = (Thrown (TypeError "Cannot read properties of undefined (reading 'queryResult')"), None).
Proof. reflexivity. Qed.

(** The end-to-end scenario: the echoed card, then the handler's text. *)
Example handleRequest_start :
  deliveries (handleRequest Sample.startMap Sample.startState).2
  = [ {| sentMessages := Val [Sample.welcomeCard; TextMessage [JsString "Welcome"]];
         sentContexts := Val [Sample.sessionContext] |} ].
Proof. vm_compute. reflexivity. Qed.

Example handleRequest_start_async :
  (handleRequest Sample.asyncStartMap Sample.startState).2
  = [ Suspended;
      Called (CallAdd (JsString "Welcome"));
      Settled Completed;
      Sent {| sentMessages := Val [Sample.welcomeCard; TextMessage [JsString "Welcome"]];
              sentContexts := Val [Sample.sessionContext] |} ].
Proof. vm_compute. reflexivity. Qed.

(** ** Pushing onto the outbound arrays *)

Section Push.
Implicit Types (st : State) (m : Message) (ms : list Message).
Implicit Types (cs items : list Context).

Lemma pushMessage_client m st : client (pushMessage m st) = client st.
Proof. unfold pushMessage. by destruct (resp_fulfillmentMessages _). Qed.

Lemma pushMessage_contexts m st :
  contextArrays (store (pushMessage m st)) = contextArrays (store st).
Proof. unfold pushMessage. by destruct (resp_fulfillmentMessages _). Qed.

Lemma pushMessage_outbound m st ms :
  outboundMessages st = Val ms ->
  outboundMessages (pushMessage m st) = Val (ms ++ [m]).
Proof.
  unfold outboundMessages, pushMessage, derefMessages.
  destruct (resp_fulfillmentMessages _) as [| |l] eqn:Hf; try done.
  simpl. rewrite Hf. rewrite lookup_alter_eq.
  destruct (messageArrays (store st) !! l); simpl; congruence.
Qed.

Lemma pushMessage_skipped m st :
  nullish (resp_fulfillmentMessages (webhookResponseBody (client st))) ->
  pushMessage m st = st.
Proof. unfold pushMessage. by intros [-> | ->]. Qed.

(** The loop of [add] over an array. *)
Lemma pushAll_outbound (elems : list JsValue) st ms :
  outboundMessages st = Val ms ->
  outboundMessages
    (foldl (fun acc responseText => pushMessage (textMessage responseText) acc) st elems)
  = Val (ms ++ (textMessage <$> elems)).
Proof.
  revert st ms. induction elems as [|e elems IH]; intros st ms Hms; simpl.
  - by rewrite app_nil_r.
  - rewrite (IH _ (ms ++ [textMessage e])).
    + by rewrite <- app_assoc.
    + by apply pushMessage_outbound.
Qed.

Lemma pushAll_client (elems : list JsValue) st :
  client (foldl (fun acc responseText => pushMessage (textMessage responseText) acc) st elems)
  = client st.
Proof.
  revert st. induction elems as [|e elems IH]; intros st; simpl; [done|].
  by rewrite IH, pushMessage_client.
Qed.

Lemma pushAll_contexts (elems : list JsValue) st :
  contextArrays
    (store (foldl (fun acc responseText => pushMessage (textMessage responseText) acc)
                  st elems))
  = contextArrays (store st).
Proof.
  revert st. induction elems as [|e elems IH]; intros st; simpl; [done|].
  by rewrite IH, pushMessage_contexts.
Qed.

Lemma pushAll_skipped (elems : list JsValue) st :
  nullish (resp_fulfillmentMessages (webhookResponseBody (client st))) ->
  foldl (fun acc responseText => pushMessage (textMessage responseText) acc) st elems = st.
Proof.
  intros Hn. induction elems as [|e elems IH]; simpl; [done|].
  by rewrite pushMessage_skipped.
Qed.

Lemma pushContexts_outbound items st cs :
  outboundContexts st = Val cs ->
  exists st', pushContexts items st = (Completed, st')
              /\ outboundContexts st' = Val (cs ++ items)
              /\ client st' = client st
              /\ messageArrays (store st') = messageArrays (store st).
Proof.
  unfold outboundContexts, pushContexts, derefContexts.
  destruct (resp_outputContexts _) as [| |l] eqn:Hf; try done.
  intros Hcs. eexists; split; [reflexivity|]. simpl. rewrite Hf.
  rewrite lookup_alter_eq.
  destruct (contextArrays (store st) !! l); simpl; [|done].
  repeat split. congruence.
Qed.

Lemma pushContexts_throws items st :
  nullish (resp_outputContexts (webhookResponseBody (client st))) ->
  exists message, pushContexts items st = (Thrown (TypeError message), st).
Proof. unfold pushContexts. intros [-> | ->]; eauto. Qed.
Lemma pushUnspreadable_throws st :
  exists message, pushUnspreadable st = (Thrown (TypeError message), st).
Proof. unfold pushUnspreadable. destruct (resp_outputContexts _); eauto. Qed.
End Push.

Lemma add_frame response st :
  client (add response st).2 = client st
  /\ contextArrays (store (add response st).2) = contextArrays (store st).
Proof.
  unfold add.
  destruct response as [| | | | |elems|len [elems|]];
    try (destruct (isStringArray _)); cbn [snd]; try done.
  - by rewrite pushMessage_client, pushMessage_contexts.
  - by rewrite pushAll_client, pushAll_contexts.
  - by rewrite pushAll_client, pushAll_contexts.
Qed.

Lemma outbound_contexts_of_add response st :
  outboundContexts (add response st).2 = outboundContexts st.
Proof.
  unfold outboundContexts, derefContexts.
  by destruct (add_frame response st) as [-> ->].
Qed.

Lemma greaterThanZero_spec (n : number) :
  greaterThanZero (Val n) = true <-> (0 < n)%Q.
Proof.
  unfold greaterThanZero, Qlt. simpl. rewrite Z.ltb_lt. lia.
Qed.

Lemma isStringArray_strings (l : list string) :
  l <> [] -> isStringArray (JsArray (JsString <$> l)) = true.
Proof.
  intros Hl. unfold isStringArray, lengthOf, greaterThanZero. simpl.
  rewrite Z.ltb_lt, length_fmap. destruct l; [done | simpl; lia].
Qed.

Lemma isStringArray_ignored (x : JsValue) :
  ignoredByAdd x -> isStringArray x = false.
Proof.
  unfold isStringArray.
  destruct x as [| | | | |elems|[n|] it]; cbn [ignoredByAdd lengthOf]; try done.
  - by intros ->.
  - intros Hn. apply not_true_is_false. by rewrite greaterThanZero_spec.
Qed.

(** ** add *)

Lemma add_string_outbound (st : State) (ms : list Message) (s : string) :
  outboundMessages st = Val ms ->
  (add (JsString s) st).1 = Completed
  /\ outboundMessages (add (JsString s) st).2 = Val (ms ++ [TextMessage [JsString s]]).
Proof.
  intros Hms. split; [done|]. simpl. by apply pushMessage_outbound.
Qed.

Lemma add_strings_outbound (st : State) (ms : list Message) (l : list string) :
  l <> [] ->
  outboundMessages st = Val ms ->
  (add (JsArray (JsString <$> l)) st).1 = Completed
  /\ outboundMessages (add (JsArray (JsString <$> l)) st).2
     = Val (ms ++ ((fun s => TextMessage [JsString s]) <$> l)).
Proof.
  intros Hl Hms. unfold add. rewrite isStringArray_strings by done.
  split; [done|]. cbn [snd].
  rewrite (pushAll_outbound _ _ ms Hms). by rewrite <- list_fmap_compose.
Qed.

(** C3: in a state whose outbound fulfillment-message array exists,
    [add] of a string appends the one text message wrapping it after the
    messages already there, and [add] of a non-empty array of strings
    appends one text message per element, in the array's order.  The
    call returns normally and leaves the outbound contexts alone. *)
Theorem add_appends_text_messages (st : State) (ms : list Message) :
  outboundMessages st = Val ms ->
  (forall s : string,
      (add (JsString s) st).1 = Completed
      /\ outboundMessages (add (JsString s) st).2
         = Val (ms ++ [TextMessage [JsString s]])
      /\ outboundContexts (add (JsString s) st).2 = outboundContexts st)
  /\ (forall l : list string,
      l <> [] ->
      (add (JsArray (JsString <$> l)) st).1 = Completed
      /\ outboundMessages (add (JsArray (JsString <$> l)) st).2
         = Val (ms ++ ((fun s => TextMessage [JsString s]) <$> l))
      /\ outboundContexts (add (JsArray (JsString <$> l)) st).2 = outboundContexts st).
Proof.
  intros Hms. split.
  - intros s. destruct (add_string_outbound st ms s Hms) as [Ho Hm].
    auto using outbound_contexts_of_add.
  - intros l Hl. destruct (add_strings_outbound st ms l Hl Hms) as [Ho Hm].
    auto using outbound_contexts_of_add.
Qed.

Lemma add_appends_text_messages_witness :
  outboundMessages Sample.startState = Val [Sample.welcomeCard]
  /\ outboundMessages (add (JsString "hello") Sample.startState).2
     = Val [Sample.welcomeCard; TextMessage [JsString "hello"]]
  /\ outboundMessages (add (JsArray [JsString "a"; JsString "b"]) Sample.startState).2
     = Val [Sample.welcomeCard; TextMessage [JsString "a"]; TextMessage [JsString "b"]].
Proof.
  pose proof (add_appends_text_messages Sample.startState [Sample.welcomeCard] eq_refl)
    as [Hone Hmany].
  split; [reflexivity|]. split.
  - exact (proj1 (proj2 (Hone "hello"))).
  - exact (proj1 (proj2 (Hmany ["a"; "b"] ltac:(discriminate)))).
Defined.

(** C8, as stated, fails: an array of numbers is neither a string nor a
    sequence of strings, yet its length is greater than 0, so the loop
    runs and a message is appended for each element. *)
Lemma add_number_array_appends :
  isString (JsArray [JsNumber (42 # 1)]) = false
  /\ isStringSequence (JsArray [JsNumber (42 # 1)]) = false
  /\ outboundMessages Sample.startState = Val [Sample.welcomeCard]
  /\ add (JsArray [JsNumber (42 # 1)]) Sample.startState <> (Completed, Sample.startState)
  /\ outboundMessages (add (JsArray [JsNumber (42 # 1)]) Sample.startState).2
     = Val [Sample.welcomeCard; TextMessage [JsNumber (42 # 1)]].
Proof.
  repeat split; try reflexivity.
  intros Heq. apply (f_equal (fun r => outboundMessages r.2)) in Heq.
  vm_compute in Heq. discriminate.
Qed.

(** C8, amended: [add] of the empty array, of [undefined], [null], a
    boolean or a number, or of a non-array object whose [length] is
    absent or not greater than 0, returns normally and leaves the whole
    state, outbound payload included, as it was. *)
Theorem add_ignores (x : JsValue) (st : State) :
  ignoredByAdd x -> add x st = (Completed, st).
Proof.
  intros Hx. pose proof (isStringArray_ignored x Hx) as Hlen.
  unfold add. rewrite Hlen. by destruct x.
Qed.

Lemma add_ignores_witness :
  add (JsArray []) Sample.startState = (Completed, Sample.startState)
  /\ add (JsNumber (7 # 1)) Sample.startState = (Completed, Sample.startState)
  /\ add (JsObject (Some (0 # 1)) None) Sample.startState = (Completed, Sample.startState).
Proof.
  split; [|split].
  - apply (add_ignores (JsArray []) Sample.startState). reflexivity.
  - apply (add_ignores (JsNumber (7 # 1)) Sample.startState). exact I.
  - apply (add_ignores (JsObject (Some (0 # 1)) None) Sample.startState).
    simpl. unfold Qlt. simpl. lia.
Defined.

(** An object that only looks like an array passes the length test and
    then cannot be looped over. *)
Example add_array_like_throws :
  add (JsObject (Some (1 # 1)) None) Sample.startState
  = (Thrown (TypeError "response is not iterable"), Sample.startState).
Proof. reflexivity. Qed.

(** [add(new String("hi"))]: not a string for [typeof], but it has a
    length and the loop goes through its characters. *)
Example add_String_object :
  outboundMessages
    (add (JsObject (Some (2 # 1)) (Some [JsString "h"; JsString "i"])) Sample.startState).2
  = Val [Sample.welcomeCard; TextMessage [JsString "h"]; TextMessage [JsString "i"]].
Proof. reflexivity. Qed.

(** ** clearFulfillments and clearContexts *)

Lemma clearFulfillments_outbound (st : State) :
  (clearFulfillments st).1 = Completed
  /\ outboundMessages (clearFulfillments st).2 = Val []
  /\ outboundContexts (clearFulfillments st).2 = outboundContexts st.
Proof.
  split; [done|]. split.
  - unfold outboundMessages, clearFulfillments. simpl. by rewrite lookup_insert_eq.
  - done.
Qed.

Lemma clearContexts_outbound (st : State) :
  (clearContexts st).1 = Completed
  /\ outboundContexts (clearContexts st).2 = Val []
  /\ outboundMessages (clearContexts st).2 = outboundMessages st.
Proof.
  split; [done|]. split.
  - unfold outboundContexts, clearContexts. simpl. by rewrite lookup_insert_eq.
  - done.
Qed.

(** The spec's scenario: clear, then add, leaves exactly one message. *)
Lemma clearFulfillments_then_add (st : State) (s : string) :
  outboundMessages (add (JsString s) (clearFulfillments st).2).2
  = Val [TextMessage [JsString s]].
Proof.
  destruct (clearFulfillments_outbound st) as (_ & Hempty & _).
  exact (proj2 (add_string_outbound _ _ s Hempty)).
Qed.

(** ** addContext *)

(** C6, as stated for every adapter state and every single context
    record, fails twice over.  The client built from a body without
    [queryResult] has no outbound context array: [addContext] of a
    single context throws there and appends nothing.  And with the
    array present, a single record that is not an instance of the
    [Context] class fails the [instanceof] test and is spread: the call
    throws and the outbound contexts stay as they were. *)
Lemma addContext_bare_throws :
  construct {| body := Val Sample.bareBody |} = (Completed, Some (client Sample.bareState))
  /\ addContext (OneContext Sample.sessionContext) Sample.bareState
     = (Thrown (TypeError "Cannot read properties of undefined (reading 'push')"),
        Sample.bareState)
  /\ outboundContexts
       (addContext (OneContext Sample.sessionContext) Sample.bareState).2 = Undefined
  /\ outboundContexts Sample.startState = Val [Sample.sessionContext]
  /\ (exists e, (addContext (PlainRecord Sample.followupContext) Sample.startState).1
                = Thrown e)
  /\ outboundContexts
       (addContext (PlainRecord Sample.followupContext) Sample.startState).2
     = Val [Sample.sessionContext].
Proof. repeat split; try reflexivity. eexists. reflexivity. Qed.

(** C6, amended: in a state whose outbound context array exists,
    [addContext] of a single context that is an instance of the
    [Context] class appends exactly that record after the contexts
    already there, and [addContext] of an array of contexts appends its
    records in the array's order; these calls return normally and leave
    the outbound messages alone.  A single record that is not a
    [Context] instance is not appended: the call throws. *)
Theorem addContext_appends (st : State) (cs : list Context) :
  outboundContexts st = Val cs ->
  (forall c : Context,
      (addContext (OneContext c) st).1 = Completed
      /\ outboundContexts (addContext (OneContext c) st).2 = Val (cs ++ [c])
      /\ outboundMessages (addContext (OneContext c) st).2 = outboundMessages st)
  /\ (forall items : list Context,
      (addContext (ContextArray items) st).1 = Completed
      /\ outboundContexts (addContext (ContextArray items) st).2 = Val (cs ++ items)
      /\ outboundMessages (addContext (ContextArray items) st).2 = outboundMessages st)
  /\ (forall c : Context,
      exists message,
        addContext (PlainRecord c) st = (Thrown (TypeError message), st)).
Proof.
  intros Hcs.
  assert (Hpush : forall items,
             (pushContexts items st).1 = Completed
             /\ outboundContexts (pushContexts items st).2 = Val (cs ++ items)
             /\ outboundMessages (pushContexts items st).2 = outboundMessages st).
  { intros items.
    destruct (pushContexts_outbound items st cs Hcs) as (st' & -> & Hout & Hcl & Hms).
    cbn [fst snd]. split; [done|]. split; [done|].
    unfold outboundMessages, derefMessages. by rewrite Hcl, Hms. }
  split; [|split].
  - intros c. apply (Hpush [c]).
  - intros items. apply (Hpush items).
  - intros c. apply pushUnspreadable_throws.
Qed.

Lemma addContext_appends_witness :
  outboundContexts Sample.startState = Val [Sample.sessionContext]
  /\ outboundContexts
       (addContext (OneContext Sample.followupContext) Sample.startState).2
     = Val [Sample.sessionContext; Sample.followupContext]
  /\ outboundContexts
       (addContext (ContextArray [Sample.followupContext; Sample.sessionContext])
                   Sample.startState).2
     = Val [Sample.sessionContext; Sample.followupContext; Sample.sessionContext].
Proof.
  pose proof (addContext_appends Sample.startState [Sample.sessionContext] eq_refl)
    as (Hone & Hmany & _).
  split; [reflexivity|]. split.
  - exact (proj1 (proj2 (Hone Sample.followupContext))).
  - exact (proj1 (proj2 (Hmany [Sample.followupContext; Sample.sessionContext]))).
Defined.

(** ** Construction *)

(** C5: for every parsed body the constructor returns a client whose
    outbound fields are the [fulfillmentMessages] and [outputContexts]
    of the body's [queryResult]: the outbound sequences start as the
    request's own messages and contexts, whatever they are, and both
    fields are [undefined] when the body has no [queryResult]. *)
Theorem construct_seeds_outbound (b : WebhookRequest) (s : Store) :
  exists c : WebhookClient,
    construct {| body := Val b |} = (Completed, Some c)
    /\ webhookRequestBody c = Val b
    /\ resp_fulfillmentMessages (webhookResponseBody c) = queryResult b ?. qr_fulfillmentMessages
    /\ resp_outputContexts (webhookResponseBody c) = queryResult b ?. qr_outputContexts
    /\ (forall ms, fulfillmentMessagesSeen {| store := s; client := c |} = Val ms ->
                   outboundMessages {| store := s; client := c |} = Val ms)
    /\ (forall cs, outputContextsSeen {| store := s; client := c |} = Val cs ->
                   outboundContexts {| store := s; client := c |} = Val cs)
    /\ (nullish (queryResult b) ->
        resp_fulfillmentMessages (webhookResponseBody c) = Undefined
        /\ resp_outputContexts (webhookResponseBody c) = Undefined).
Proof.
  eexists. split; [reflexivity|]. simpl.
  split; [done|]. split; [done|]. split; [done|]. split; [|split].
  - intros ms. unfold fulfillmentMessagesSeen, outboundMessages, fulfillmentMessages. simpl.
    destruct (queryResult b ?. qr_fulfillmentMessages) as [| |l]; simpl; try done.
    by destruct (messageArrays s !! l).
  - intros cs. unfold outputContextsSeen, outboundContexts, outputContexts. simpl.
    destruct (queryResult b ?. qr_outputContexts) as [| |l]; simpl; try done.
    by destruct (contextArrays s !! l).
  - by intros [-> | ->].
Qed.

Lemma construct_seeds_outbound_witness :
  exists c : WebhookClient,
    construct {| body := Val Sample.startBody |} = (Completed, Some c)
    /\ outboundMessages {| store := Sample.startStore; client := c |}
       = Val [Sample.welcomeCard]
    /\ outboundContexts {| store := Sample.startStore; client := c |}
       = Val [Sample.sessionContext].
Proof.
  destruct (construct_seeds_outbound Sample.startBody Sample.startStore)
    as (c & Hc & _ & _ & _ & Hms & Hcs & _).
  exists c. split; [exact Hc|].
  injection Hc as <-. split.
  - apply Hms. reflexivity.
  - apply Hcs. reflexivity.
Defined.

(** ** Outbound fields that start out undefined *)

(** C9: when the body's [queryResult] has no [fulfillmentMessages]
    (in particular when there is no [queryResult]), the constructed
    client's outbound message field is [undefined]; any sequence of
    [add] calls with strings or non-empty string arrays then returns
    normally and changes nothing; [clearFulfillments] sets the field to
    an empty array, after which [add] appends as usual. *)
Theorem add_without_messages (b : WebhookRequest) (s : Store) (c : WebhookClient) :
  construct {| body := Val b |} = (Completed, Some c) ->
  queryResult b ?. qr_fulfillmentMessages = Undefined ->
  let st := {| store := s; client := c |} in
  resp_fulfillmentMessages (webhookResponseBody c) = Undefined
  /\ (forall s : string, add (JsString s) st = (Completed, st))
  /\ (forall l : list string, l <> [] -> add (JsArray (JsString <$> l)) st = (Completed, st))
  /\ (forall xs : list JsValue,
        Forall (fun x => isString x = true \/ isStringSequence x = true) xs ->
        performAll (CallAdd <$> xs) st = (Completed, st))
  /\ outboundMessages (clearFulfillments st).2 = Val []
  /\ (forall s : string,
        outboundMessages (add (JsString s) (clearFulfillments st).2).2
        = Val [TextMessage [JsString s]])
  /\ (forall l : list string,
        l <> [] ->
        outboundMessages (add (JsArray (JsString <$> l)) (clearFulfillments st).2).2
        = Val ((fun s => TextMessage [JsString s]) <$> l)).
Proof.
  intros [= <-] Hq st.
  assert (Hnull : nullish (resp_fulfillmentMessages (webhookResponseBody (client st)))).
  { left. exact Hq. }
  assert (Hadd : forall x, isString x = true \/ isStringSequence x = true ->
                           add x st = (Completed, st)).
  { intros x Hx. unfold add.
    destruct x as [| | | | |elems|len]; destruct Hx as [Hx|Hx]; try discriminate.
    - by rewrite pushMessage_skipped.
    - destruct (isStringArray _); [|done]. by rewrite pushAll_skipped.
  }
  split; [exact Hq|]. split; [|split; [|split; [|split; [|split]]]].
  - intros s'. apply Hadd. by left.
  - intros l _. apply Hadd. right. simpl.
    induction l as [|x l IH]; [done | exact IH].
  - intros xs Hxs. induction Hxs as [|x xs Hx _ IH]; [done|].
    simpl. rewrite (Hadd x Hx). exact IH.
  - apply clearFulfillments_outbound.
  - intros s'. apply clearFulfillments_then_add.
  - intros l Hl.
    destruct (clearFulfillments_outbound st) as (_ & Hempty & _).
    exact (proj2 (add_strings_outbound _ _ l Hl Hempty)).
Qed.

Lemma add_without_messages_witness :
  construct {| body := Val Sample.bareBody |} = (Completed, Some (client Sample.bareState))
  /\ add (JsString "hello") Sample.bareState = (Completed, Sample.bareState)
  /\ outboundMessages (add (JsString "hello") (clearFulfillments Sample.bareState).2).2
     = Val [TextMessage [JsString "hello"]].
Proof.
  pose proof (add_without_messages Sample.bareBody Sample.emptyStore
                (client Sample.bareState) eq_refl eq_refl)
    as (_ & Hone & _ & _ & _ & Hafter & _).
  split; [reflexivity|]. split.
  - exact (Hone "hello").
  - exact (Hafter "hello").
Defined.

(** C10: when the body's [queryResult] has no [outputContexts] (in
    particular when there is no [queryResult]), the constructed client's
    outbound context field is [undefined]; every [addContext] call, with
    a single context or an array, even an empty one, then throws a
    TypeError and changes nothing, where [add] in the same state returns
    normally; once [clearContexts] has run, [addContext] returns
    normally and the outbound contexts are exactly the ones pushed. *)
Theorem addContext_without_contexts (b : WebhookRequest) (s : Store) (c : WebhookClient) :
  construct {| body := Val b |} = (Completed, Some c) ->
  queryResult b ?. qr_outputContexts = Undefined ->
  let st := {| store := s; client := c |} in
  resp_outputContexts (webhookResponseBody c) = Undefined
  /\ (forall context : ContextArg,
        addContext context st
        = (Thrown (TypeError "Cannot read properties of undefined (reading 'push')"), st))
  /\ (forall response : JsValue, outboundContexts (add response st).2 = Undefined)
  /\ (forall s : string, (add (JsString s) st).1 = Completed)
  /\ (forall c : Context,
        (addContext (OneContext c) (clearContexts st).2).1 = Completed
        /\ outboundContexts (addContext (OneContext c) (clearContexts st).2).2 = Val [c])
  /\ (forall cs : list Context,
        (addContext (ContextArray cs) (clearContexts st).2).1 = Completed
        /\ outboundContexts (addContext (ContextArray cs) (clearContexts st).2).2 = Val cs).
Proof.
  intros [= <-] Hq st.
  assert (Hr : resp_outputContexts (webhookResponseBody (client st)) = Undefined)
    by exact Hq.
  destruct (clearContexts_outbound st) as (_ & Hempty & _).
  split; [exact Hq|]. split; [|split; [|split; [|split]]].
  - intros context.
    destruct context; unfold addContext, pushContexts, pushUnspreadable; by rewrite Hr.
  - intros response. rewrite outbound_contexts_of_add.
    unfold outboundContexts. by rewrite Hr.
  - done.
  - intros c. cbn [addContext].
    by destruct (pushContexts_outbound [c] _ [] Hempty) as (st' & -> & Hout & _).
  - intros cs. cbn [addContext].
    by destruct (pushContexts_outbound cs _ [] Hempty) as (st' & -> & Hout & _).
Qed.

Lemma addContext_without_contexts_witness :
  construct {| body := Val Sample.bareBody |} = (Completed, Some (client Sample.bareState))
  /\ addContext (ContextArray []) Sample.bareState
     = (Thrown (TypeError "Cannot read properties of undefined (reading 'push')"),
        Sample.bareState)
  /\ outboundContexts
       (addContext (OneContext Sample.sessionContext) (clearContexts Sample.bareState).2).2
     = Val [Sample.sessionContext].
Proof.
  pose proof (addContext_without_contexts Sample.bareBody Sample.emptyStore
                (client Sample.bareState) eq_refl eq_refl)
    as (_ & Hthrow & _ & _ & Hafter & _).
  split; [reflexivity|]. split.
  - exact (Hthrow (ContextArray [])).
  - exact (proj2 (Hafter Sample.sessionContext)).
Defined.

(** ** Read accessors *)

Lemma orNull_of_nullish {A : Type} (x : Nullable A) : nullish x -> orNull x = Null.
Proof. by intros [-> | ->]. Qed.

Lemma orNull_defined {A : Type} (x : Nullable A) : orNull x <> Undefined.
Proof. by destruct x. Qed.

Lemma optChain_of_nullish {A B : Type} (x : Nullable A) (f : A -> Nullable B) :
  nullish x -> optChain x f = Undefined.
Proof. by intros [-> | ->]. Qed.

(** C7, as stated for all thirteen getters, fails: [responseId] does
    not read through [queryResult], so on a body that has a
    [responseId] and no [queryResult] it returns the identifier. *)
Lemma responseId_without_queryResult :
  nullish (webhookRequestBody (client Sample.bareState) ?. queryResult)
  /\ responseId (client Sample.bareState) = Val "r-1"
  /\ ~ returnsNull GetResponseId (client Sample.bareState).
Proof. split; [by left|]. split; [reflexivity|]. simpl. discriminate. Qed.

(** C7, amended: on a client whose body has no [queryResult], each of
    the ten getters that read through [queryResult] returns [null];
    every getter returns [null] whenever the chain it reads itself ends
    in an absent or [null] field; and no getter ever returns
    [undefined].  The getters are total: none of them can throw. *)
Theorem accessors_null_when_missing (a : Accessor) (this : WebhookClient) :
  (throughQueryResult a = true ->
   nullish (webhookRequestBody this ?. queryResult) ->
   returnsNull a this)
  /\ (pathMissing a this -> returnsNull a this)
  /\ ~ returnsUndefined a this.
Proof.
  split; [|split].
  - intros Ha Hq.
    destruct a; try discriminate Ha; simpl;
      apply orNull_of_nullish; left; by apply optChain_of_nullish.
  - destruct a; simpl; apply orNull_of_nullish.
  - destruct a; simpl; apply orNull_defined.
Qed.

Lemma accessors_null_when_missing_witness :
  nullish (webhookRequestBody (client Sample.bareState) ?. queryResult)
  /\ query (client Sample.bareState) = Null
  /\ nullish (webhookRequestBody (client Sample.bareState) ?. wr_originalDetectIntentRequest)
  /\ originalDetectIntentRequest (client Sample.bareState) = Null.
Proof.
  split; [by left|]. split; [|split; [by left|]].
  - apply (proj1 (accessors_null_when_missing GetQuery (client Sample.bareState)));
      [reflexivity | by left].
  - apply (proj1 (proj2 (accessors_null_when_missing GetOriginalDetectIntentRequest
                           (client Sample.bareState)))).
    by left.
Defined.

(** ** What mutation calls leave alone *)

(** [frames st st']: going from [st] to [st'] kept the request body,
    kept every array of [st] in the store, and left untouched the
    contents of each array that the response did not refer to; the
    response still does not refer to these. *)
Definition frames (st st' : State) : Prop :=
  webhookRequestBody (client st') = webhookRequestBody (client st)
  /\ (forall l, l ∈ dom (messageArrays (store st)) ->
        l ∈ dom (messageArrays (store st'))
        /\ (resp_fulfillmentMessages (webhookResponseBody (client st)) <> Val l ->
            messageArrays (store st') !! l = messageArrays (store st) !! l
            /\ resp_fulfillmentMessages (webhookResponseBody (client st')) <> Val l))
  /\ (forall l, l ∈ dom (contextArrays (store st)) ->
        l ∈ dom (contextArrays (store st'))
        /\ (resp_outputContexts (webhookResponseBody (client st)) <> Val l ->
            contextArrays (store st') !! l = contextArrays (store st) !! l
            /\ resp_outputContexts (webhookResponseBody (client st')) <> Val l)).

Lemma frames_refl (st : State) : frames st st.
Proof. unfold frames. naive_solver. Qed.

Lemma frames_trans (st1 st2 st3 : State) :
  frames st1 st2 -> frames st2 st3 -> frames st1 st3.
Proof.
  intros (Hb1 & Hm1 & Hc1) (Hb2 & Hm2 & Hc2). split; [congruence|]. split.
  - intros l Hl. destruct (Hm1 l Hl) as [Hd1 Hk1]. destruct (Hm2 l Hd1) as [Hd2 Hk2].
    split; [done|]. intros Hne. destruct (Hk1 Hne) as [He1 Hn1].
    destruct (Hk2 Hn1) as [He2 Hn2]. split; [congruence | done].
  - intros l Hl. destruct (Hc1 l Hl) as [Hd1 Hk1]. destruct (Hc2 l Hd1) as [Hd2 Hk2].
    split; [done|]. intros Hne. destruct (Hk1 Hne) as [He1 Hn1].
    destruct (Hk2 Hn1) as [He2 Hn2]. split; [congruence | done].
Qed.

Lemma frames_pushMessage (m : Message) (st : State) : frames st (pushMessage m st).
Proof.
  unfold pushMessage.
  destruct (resp_fulfillmentMessages _) as [| |k] eqn:Hk; try apply frames_refl.
  split; [done|]. split; [|naive_solver].
  intros l Hl. simpl. split.
  - by rewrite dom_alter_L.
  - intros Hne. rewrite Hk in Hne |- *. split; [|done].
    apply lookup_alter_ne. congruence.
Qed.

Lemma frames_pushAll (elems : list JsValue) (st : State) :
  frames st (foldl (fun acc responseText => pushMessage (textMessage responseText) acc)
                   st elems).
Proof.
  revert st. induction elems as [|e elems IH]; intros st; simpl.
  - apply frames_refl.
  - eapply frames_trans; [apply frames_pushMessage | apply IH].
Qed.

Lemma frames_add (response : JsValue) (st : State) : frames st (add response st).2.
Proof.
  unfold add.
  destruct response as [| | | | |elems|len [elems|]];
    try (destruct (isStringArray _)); cbn [snd];
    auto using frames_refl, frames_pushMessage, frames_pushAll.
Qed.

Lemma frames_pushContexts (items : list Context) (st : State) :
  frames st (pushContexts items st).2.
Proof.
  unfold pushContexts.
  destruct (resp_outputContexts _) as [| |k] eqn:Hk; try apply frames_refl.
  split; [done|]. split; [naive_solver|].
  intros l Hl. simpl. split.
  - by rewrite dom_alter_L.
  - intros Hne. rewrite Hk in Hne |- *. split; [|done].
    apply lookup_alter_ne. congruence.
Qed.

Lemma frames_clearFulfillments (st : State) : frames st (clearFulfillments st).2.
Proof.
  split; [done|]. split; [|naive_solver].
  intros l Hl. simpl.
  assert (Hfresh : fresh (dom (messageArrays (store st))) <> l).
  { intros <-. by apply (is_fresh (dom (messageArrays (store st)))). }
  split.
  - rewrite dom_insert_L. set_solver.
  - intros _. split; [by apply lookup_insert_ne | congruence].
Qed.

Lemma frames_clearContexts (st : State) : frames st (clearContexts st).2.
Proof.
  split; [done|]. split; [naive_solver|].
  intros l Hl. simpl.
  assert (Hfresh : fresh (dom (contextArrays (store st))) <> l).
  { intros <-. by apply (is_fresh (dom (contextArrays (store st)))). }
  split.
  - rewrite dom_insert_L. set_solver.
  - intros _. split; [by apply lookup_insert_ne | congruence].
Qed.

Lemma frames_perform (c : Call) (st : State) : frames st (perform c st).2.
Proof.
  destruct c as [response| |[c|cs|r]|]; simpl.
  - apply frames_add.
  - apply frames_clearFulfillments.
  - apply frames_pushContexts.
  - apply frames_pushContexts.
  - destruct (pushUnspreadable_throws st) as [message ->]. apply frames_refl.
  - apply frames_clearContexts.
Qed.

Lemma frames_performAll (cs : list Call) (st : State) : frames st (performAll cs st).2.
Proof.
  revert st. induction cs as [|c cs IH]; intros st; simpl.
  - apply frames_refl.
  - pose proof (frames_perform c st) as Hc.
    destruct (perform c st) as [[|e] st1]; simpl in Hc; [|done].
    eapply frames_trans; [exact Hc | apply IH].
Qed.

Lemma frames_readings (st st' : State) :
  frames st st' ->
  readings (client st') = readings (client st)
  /\ fulfillmentMessages (client st') = fulfillmentMessages (client st)
  /\ outputContexts (client st') = outputContexts (client st).
Proof.
  intros (Hb & _).
  unfold readings, responseId, session, query, parameters, allRequiredParamsPresent,
    fulfillmentText, intent, intentDetectionConfidence, diagnosticInfo, languageCode,
    originalDetectIntentRequest, fulfillmentMessages, outputContexts.
  by rewrite Hb.
Qed.

Lemma frames_messages_seen (st st' : State) :
  frames st st' -> inboundAllocated st -> messagesDetached st ->
  fulfillmentMessagesSeen st' = fulfillmentMessagesSeen st.
Proof.
  intros Hf [Halloc _] Hdet.
  destruct (frames_readings _ _ Hf) as (_ & Hr & _).
  destruct Hf as (_ & Hm & _).
  unfold fulfillmentMessagesSeen, derefMessages. rewrite Hr.
  destruct (fulfillmentMessages (client st)) as [| |l] eqn:Hl; try done.
  destruct (Hm l (Halloc l eq_refl)) as [_ Hk].
  destruct Hk as [-> _]; [|done].
  intros Hresp. by apply (Hdet l Hresp).
Qed.

Lemma frames_contexts_seen (st st' : State) :
  frames st st' -> inboundAllocated st -> contextsDetached st ->
  outputContextsSeen st' = outputContextsSeen st.
Proof.
  intros Hf [_ Halloc] Hdet.
  destruct (frames_readings _ _ Hf) as (_ & _ & Hr).
  destruct Hf as (_ & _ & Hc).
  unfold outputContextsSeen, derefContexts. rewrite Hr.
  destruct (outputContexts (client st)) as [| |l] eqn:Hl; try done.
  destruct (Hc l (Halloc l eq_refl)) as [_ Hk].
  destruct Hk as [-> _]; [|done].
  intros Hresp. by apply (Hdet l Hresp).
Qed.

Lemma frames_allocated (st st' : State) :
  frames st st' -> inboundAllocated st -> inboundAllocated st'.
Proof.
  intros Hf [Hm Hc].
  destruct (frames_readings _ _ Hf) as (_ & Hrm & Hrc).
  destruct Hf as (_ & Hfm & Hfc). split.
  - intros l Hl. rewrite Hrm in Hl. by apply Hfm, Hm.
  - intros l Hl. rewrite Hrc in Hl. by apply Hfc, Hc.
Qed.

(** After [clearFulfillments] the response owns a new array; the
    request's array is as it was. *)
Lemma clearFulfillments_detaches (st : State) :
  inboundAllocated st ->
  messagesDetached (clearFulfillments st).2
  /\ fulfillmentMessagesSeen (clearFulfillments st).2 = fulfillmentMessagesSeen st.
Proof.
  intros [Hm _]. split.
  - intros l [= <-] Hin. apply Hm in Hin.
    by apply (is_fresh (dom (messageArrays (store st)))).
  - unfold fulfillmentMessagesSeen.
    change (fulfillmentMessages (client (clearFulfillments st).2))
      with (fulfillmentMessages (client st)).
    destruct (fulfillmentMessages (client st)) as [| |l] eqn:Hl; try done.
    unfold derefMessages.
    change (messageArrays (store (clearFulfillments st).2))
      with (<[fresh (dom (messageArrays (store st))) := []]> (messageArrays (store st))).
    rewrite lookup_insert_ne; [done|].
    intros <-. apply (is_fresh (dom (messageArrays (store st)))). by apply Hm.
Qed.

Lemma clearContexts_detaches (st : State) :
  inboundAllocated st ->
  contextsDetached (clearContexts st).2
  /\ outputContextsSeen (clearContexts st).2 = outputContextsSeen st.
Proof.
  intros [_ Hc]. split.
  - intros l [= <-] Hin. apply Hc in Hin.
    by apply (is_fresh (dom (contextArrays (store st)))).
  - unfold outputContextsSeen.
    change (outputContexts (client (clearContexts st).2))
      with (outputContexts (client st)).
    destruct (outputContexts (client st)) as [| |l] eqn:Hl; try done.
    unfold derefContexts.
    change (contextArrays (store (clearContexts st).2))
      with (<[fresh (dom (contextArrays (store st))) := []]> (contextArrays (store st))).
    rewrite lookup_insert_ne; [done|].
    intros <-. apply (is_fresh (dom (contextArrays (store st)))). by apply Hc.
Qed.

(** C4, as stated, fails: the constructor stored the request's own
    message array in the response, so [add] pushes onto the array that
    the [fulfillmentMessages] getter returns.  The getter shows one
    message before the call and two after it. *)
Lemma add_changes_inbound_messages :
  construct {| body := Val Sample.startBody |} = (Completed, Some (client Sample.startState))
  /\ fulfillmentMessagesSeen Sample.startState = Val [Sample.welcomeCard]
  /\ (performAll [CallAdd (JsString "hello")] Sample.startState).1 = Completed
  /\ fulfillmentMessagesSeen (performAll [CallAdd (JsString "hello")] Sample.startState).2
     = Val [Sample.welcomeCard; TextMessage [JsString "hello"]].
Proof. repeat split; reflexivity. Qed.

(** The same sharing for contexts. *)
Example addContext_changes_inbound_contexts :
  outputContextsSeen Sample.startState = Val [Sample.sessionContext]
  /\ outputContextsSeen
       (performAll [CallAddContext (OneContext Sample.followupContext)] Sample.startState).2
     = Val [Sample.sessionContext; Sample.followupContext].
Proof. split; reflexivity. Qed.

(** C4, amended: no sequence of mutation calls writes the request
    body, so each of the eleven getters other than [fulfillmentMessages]
    and [outputContexts] returns the same value before and after it, and
    those two return the same array object.  What that array holds is
    the same before and after when the response's array is not the
    request's, and so for every sequence that starts with
    [clearFulfillments] (for messages) or [clearContexts] (for
    contexts). *)
Theorem mutations_preserve_reads (calls : list Call) (st : State) :
  let st' := (performAll calls st).2 in
  webhookRequestBody (client st') = webhookRequestBody (client st)
  /\ readings (client st') = readings (client st)
  /\ fulfillmentMessages (client st') = fulfillmentMessages (client st)
  /\ outputContexts (client st') = outputContexts (client st)
  /\ (inboundAllocated st -> messagesDetached st ->
      fulfillmentMessagesSeen st' = fulfillmentMessagesSeen st)
  /\ (inboundAllocated st -> contextsDetached st ->
      outputContextsSeen st' = outputContextsSeen st)
  /\ (inboundAllocated st ->
      fulfillmentMessagesSeen (performAll (CallClearFulfillments :: calls) st).2
      = fulfillmentMessagesSeen st)
  /\ (inboundAllocated st ->
      outputContextsSeen (performAll (CallClearContexts :: calls) st).2
      = outputContextsSeen st).
Proof.
  intros st'. pose proof (frames_performAll calls st) as Hf.
  destruct (frames_readings _ _ Hf) as (Hr & Hrm & Hrc).
  split; [apply Hf|]. split; [exact Hr|]. split; [exact Hrm|]. split; [exact Hrc|].
  split; [|split; [|split]].
  - by apply frames_messages_seen.
  - by apply frames_contexts_seen.
  - intros Halloc. cbn [performAll perform].
    destruct (clearFulfillments_detaches st Halloc) as [Hdet <-].
    apply frames_messages_seen; [apply frames_performAll | | exact Hdet].
    exact (frames_allocated _ _ (frames_clearFulfillments st) Halloc).
  - intros Halloc. cbn [performAll perform].
    destruct (clearContexts_detaches st Halloc) as [Hdet <-].
    apply frames_contexts_seen; [apply frames_performAll | | exact Hdet].
    exact (frames_allocated _ _ (frames_clearContexts st) Halloc).
Qed.

Lemma startState_allocated : inboundAllocated Sample.startState.
Proof.
  split; intros l [= <-]; apply elem_of_dom; eexists; reflexivity.
Qed.

Lemma mutations_preserve_reads_witness :
  inboundAllocated Sample.startState
  /\ session
       (client (performAll [CallAdd (JsString "hello"); CallClearContexts] Sample.startState).2)
     = Val "projects/p/agent/sessions/s"
  /\ fulfillmentMessagesSeen
       (performAll [CallClearFulfillments; CallAdd (JsString "hello"); CallClearContexts]
                   Sample.startState).2
     = Val [Sample.welcomeCard].
Proof.
  pose proof (mutations_preserve_reads
                [CallAdd (JsString "hello"); CallClearContexts] Sample.startState)
    as (_ & Hr & _ & _ & _ & _ & Hm & _).
  split; [exact startState_allocated|]. split.
  - exact (f_equal readSession Hr).
  - exact (Hm startState_allocated).
Defined.

(** ** Dispatch *)

Lemma runHandler_deliveries (h : Handler) (st : State) :
  deliveries (runHandler h st).2 = [].
Proof.
  revert st. induction h as [|e|k IH|c k IH|k IH]; intros st; simpl.
  - done.
  - done.
  - specialize (IH st). by destruct (runHandler k st) as [[o st'] evs].
  - destruct (perform c st) as [[|e] st1]; [|done].
    specialize (IH st1). by destruct (runHandler k st1) as [[o st'] evs].
  - apply IH.
Qed.

(** The state a handler leaves is the one its calls produce, made in
    the order in which they were observed. *)
Lemma runHandler_calls (h : Handler) (st : State) :
  (performAll (callsOf (runHandler h st).2) st).2 = (runHandler h st).1.2
  /\ ((runHandler h st).1.1 = Completed ->
      (performAll (callsOf (runHandler h st).2) st).1 = Completed).
Proof.
  revert st. induction h as [|e|k IH|c k IH|k IH]; intros st; simpl.
  - done.
  - done.
  - specialize (IH st). by destruct (runHandler k st) as [[o st'] evs].
  - destruct (perform c st) as [[|e] st1] eqn:Hc.
    + specialize (IH st1). destruct (runHandler k st1) as [[o st'] evs].
      simpl. by rewrite Hc.
    + simpl. by rewrite Hc.
  - apply IH.
Qed.

(** A handler's last event is its settling. *)
Lemma runHandler_settles (h : Handler) (st : State) :
  last (runHandler h st).2 = Some (Settled (runHandler h st).1.1).
Proof.
  revert st. induction h as [|e|k IH|c k IH|k IH]; intros st; simpl.
  - done.
  - done.
  - specialize (IH st). destruct (runHandler k st) as [[o st'] evs]. simpl in *.
    destruct evs; [done | exact IH].
  - destruct (perform c st) as [[|e] st1]; [|done].
    specialize (IH st1). destruct (runHandler k st1) as [[o st'] evs]. simpl in *.
    destruct evs; [done | exact IH].
  - apply IH.
Qed.

(** C1: when the detected intent's display name is an own key of the
    intent map and the handler found there settles successfully,
    [handleRequest] completes and delivers exactly once.  The delivery
    is the last event, right after the handler's settling and after
    every suspension and call the handler made; the payload sent is the
    serialization of the state that the handler's calls, performed in
    order, lead to. *)
Theorem handleRequest_delivers_once
    (intentMap : IntentMap) (st : State) (intentDisplayName : string) (h : Handler) :
  detectedIntent (client st) = Val intentDisplayName ->
  own intentMap !! intentDisplayName = Some (Function h) ->
  (runHandler h st).1.1 = Completed ->
  let st' := (runHandler h st).1.2 in
  let evs := (runHandler h st).2 in
  handleRequest intentMap st = (Completed, st', evs ++ [Sent (serialize st')])
  /\ deliveries (handleRequest intentMap st).2 = [serialize st']
  /\ deliveries evs = []
  /\ last evs = Some (Settled Completed)
  /\ performAll (callsOf evs) st = (Completed, st').
Proof.
  intros Hname Hown Hok st' evs.
  pose proof (runHandler_deliveries h st) as Hnone.
  pose proof (runHandler_settles h st) as Hlast.
  pose proof (runHandler_calls h st) as [Hcalls Hdone].
  assert (Hrun : handleRequest intentMap st = (Completed, st', evs ++ [Sent (serialize st')])).
  { unfold handleRequest, getProperty. rewrite Hname. cbn [toPropertyKey]. rewrite Hown.
    subst st' evs. destruct (runHandler h st) as [[o s'] es]. simpl in Hok. by subst o. }
  split; [exact Hrun|]. split; [|split; [|split]].
  - rewrite Hrun. cbn [snd]. unfold deliveries in *. rewrite omap_app.
    fold (deliveries evs). subst evs. unfold deliveries. by rewrite Hnone.
  - exact Hnone.
  - by rewrite Hok in Hlast.
  - specialize (Hdone Hok). subst st' evs.
    destruct (performAll _ st) as [o s']. simpl in *. congruence.
Qed.

Lemma handleRequest_delivers_once_witness :
  detectedIntent (client Sample.startState) = Val "Start"
  /\ (handleRequest Sample.asyncStartMap Sample.startState).2
     = [ Suspended;
         Called (CallAdd (JsString "Welcome"));
         Settled Completed;
         Sent {| sentMessages := Val [Sample.welcomeCard; TextMessage [JsString "Welcome"]];
                 sentContexts := Val [Sample.sessionContext] |} ].
Proof.
  split; [reflexivity|].
  pose proof (handleRequest_delivers_once Sample.asyncStartMap Sample.startState "Start"
                (Await (Invoke (CallAdd (JsString "Welcome")) Return))
                eq_refl eq_refl eq_refl) as [Hrun _].
  rewrite Hrun. vm_compute. reflexivity.
Defined.

(** C2, as stated for every name that is not a key of the map, fails:
    an intent map written as an object literal inherits [toString], so
    for a detected intent called "toString" the lookup yields a
    function, the call returns, and the response is delivered. *)
Lemma handleRequest_inherited_member_delivers :
  detectedIntent (client Sample.toStringState) = Val "toString"
  /\ own Sample.startMap !! "toString" = None
  /\ (handleRequest Sample.startMap Sample.toStringState).1.1 = Completed
  /\ deliveries (handleRequest Sample.startMap Sample.toStringState).2
     = [ {| sentMessages := Val [Sample.welcomeCard];
            sentContexts := Val [Sample.sessionContext] |} ].
Proof. repeat split; vm_compute; reflexivity. Qed.

(** C2, amended: when the detected intent's display name is neither an
    own key of the intent map nor the name of a member the map inherits,
    the lookup yields [undefined]; [handleRequest] then fails with a
    TypeError without having run any handler, the state is as it was,
    and nothing is delivered.  There is no check before the call and no
    fallback response. *)
Theorem handleRequest_unknown_intent (intentMap : IntentMap) (st : State) :
  own intentMap !! toPropertyKey (detectedIntent (client st)) = None ->
  inherited intentMap !! toPropertyKey (detectedIntent (client st)) = None ->
  handleRequest intentMap st
  = (Thrown (TypeError "intentMap[(intermediate value)] is not a function"), st, [])
  /\ deliveries (handleRequest intentMap st).2 = [].
Proof.
  intros Hown Hinh.
  assert (Hrun : handleRequest intentMap st
                 = (Thrown (TypeError "intentMap[(intermediate value)] is not a function"), st, [])).
  { unfold handleRequest, getProperty. by rewrite Hown, Hinh. }
  split; [exact Hrun|]. by rewrite Hrun.
Qed.

Lemma handleRequest_unknown_intent_witness :
  toPropertyKey (detectedIntent (client Sample.bareState)) = "undefined"
  /\ handleRequest Sample.startMap Sample.bareState
     = (Thrown (TypeError "intentMap[(intermediate value)] is not a function"), Sample.bareState, []).
Proof.
  split; [reflexivity|].
  apply (handleRequest_unknown_intent Sample.startMap Sample.bareState);
    vm_compute; reflexivity.
Defined.

(** A handler that fails leaves nothing delivered either. *)
Lemma handleRequest_handler_failure (intentMap : IntentMap) (st : State)
    (h : Handler) (e : JsError) :
  getProperty intentMap (toPropertyKey (detectedIntent (client st))) = Some (Function h) ->
  (runHandler h st).1.1 = Thrown e ->
  (handleRequest intentMap st).1.1 = Thrown e
  /\ deliveries (handleRequest intentMap st).2 = [].
Proof.
  intros Hget Hfail. unfold handleRequest. rewrite Hget.
  pose proof (runHandler_deliveries h st) as Hnone.
  destruct (runHandler h st) as [[o s'] es]. simpl in *. by subst o.
Qed.

(** * Further properties of the class *)

(** ** The constructor and a missing body *)

(** The constructor throws exactly when the request has no parsed body
    ([undefined] or [null]); otherwise it returns a client that holds
    that body, whatever fields the body has or lacks. *)
Theorem construct_requires_body (request : Request) :
  (nullish (body request) <->
   exists message, construct request = (Thrown (TypeError message), None))
  /\ (forall b, body request = Val b <->
        exists c, construct request = (Completed, Some c) /\ webhookRequestBody c = Val b).
Proof.
  unfold construct. split.
  - split.
    + intros [-> | ->]; eauto.
    + intros [message Hc]. destruct (body request); [by left | by right | discriminate].
  - intros b. split.
    + intros ->. eauto.
    + intros (c & Hc & Hb). destruct (body request); try discriminate.
      injection Hc as <-. simpl in Hb. congruence.
Qed.

Lemma construct_requires_body_witness :
  nullish (body {| body := Null |})
  /\ exists message, construct {| body := Null |} = (Thrown (TypeError message), None).
Proof.
  split; [by right|].
  apply (proj1 (proj1 (construct_requires_body {| body := Null |}))). by right.
Defined.

(** ** add, for every argument *)

Lemma isStringArray_cons (e : JsValue) (elems : list JsValue) :
  isStringArray (JsArray (e :: elems)) = true.
Proof.
  unfold isStringArray, lengthOf, greaterThanZero. simpl Qnum.
  apply Z.ltb_lt. simpl List.length. lia.
Qed.

(** On an array, [add] is its loop: the length test only skips the
    array over which the loop would not run anyway. *)
Lemma add_array_loop (elems : list JsValue) (st : State) :
  add (JsArray elems) st
  = (Completed,
     foldl (fun acc responseText => pushMessage (textMessage responseText) acc) st elems).
Proof.
  destruct elems as [|e elems]; [done|].
  unfold add. by rewrite isStringArray_cons.
Qed.

Lemma add_pushes (response : JsValue) (st : State) (ms : list Message) :
  outboundMessages st = Val ms ->
  addThrows response = false ->
  (add response st).1 = Completed
  /\ outboundMessages (add response st).2 = Val (ms ++ messagesAdded response).
Proof.
  intros Hms Hthrow.
  destruct response as [| | | |s|elems|[n|] [elems|]];
    try (split; [done|]; simpl; by rewrite app_nil_r).
  - split; [done|]. simpl. by apply pushMessage_outbound.
  - rewrite add_array_loop. split; [done|]. by apply pushAll_outbound.
  - unfold add, isStringArray. cbn [lengthOf messagesAdded].
    destruct (greaterThanZero (Val n)).
    + split; [done|]. by apply pushAll_outbound.
    + split; [done|]. simpl. by rewrite app_nil_r.
  - unfold add, isStringArray. cbn [lengthOf]. cbn [addThrows] in Hthrow. rewrite Hthrow.
    split; [done|]. simpl. by rewrite app_nil_r.
Qed.



(** [add] of an array of strings does to the whole state what the
    calls [add(s)], one per element and in the array's order, do; this
    holds in every state and for the empty array too. *)
Theorem add_array_as_single_adds (l : list string) (st : State) :
  add (JsArray (JsString <$> l)) st
  = performAll ((fun s => CallAdd (JsString s)) <$> l) st.
Proof.
  rewrite add_array_loop. revert st.
  induction l as [|s l IH]; intros st; [done|].
  simpl. apply IH.
Qed.

(** While the outbound message field is [undefined] or [null], [add]
    changes nothing whatever it is given, and returns normally unless
    its argument is one it throws on; while the outbound context field
    is [undefined] or [null], every [addContext] throws a TypeError and
    changes nothing. *)
Theorem nullish_outbound_fields (st : State) :
  (nullish (resp_fulfillmentMessages (webhookResponseBody (client st))) ->
   forall response,
     (add response st).2 = st
     /\ (addThrows response = false -> (add response st).1 = Completed))
  /\ (nullish (resp_outputContexts (webhookResponseBody (client st))) ->
      forall context,
        exists message, addContext context st = (Thrown (TypeError message), st)).
Proof.
  split.
  - intros Hn response.
    destruct response as [| | | |s|elems|[n|] [elems|]]; try done.
    + split; [|done]. simpl. by apply pushMessage_skipped.
    + rewrite add_array_loop. split; [|done]. simpl. by apply pushAll_skipped.
    + unfold add, isStringArray. cbn [lengthOf addThrows].
      destruct (greaterThanZero (Val n)); cbn [fst snd]; [|done].
      split; [|done]. by apply pushAll_skipped.
    + unfold add, isStringArray. cbn [lengthOf addThrows].
      destruct (greaterThanZero (Val n)); by split.
  - intros Hn [c|cs|r]; cbn [addContext];
      [by apply pushContexts_throws | by apply pushContexts_throws
      | apply pushUnspreadable_throws].
Qed.

Lemma nullish_outbound_fields_witness :
  nullish (resp_fulfillmentMessages (webhookResponseBody (client Scenario.plainState)))
  /\ (add (JsArray [JsString "a"; JsString "b"]) Scenario.plainState).2 = Scenario.plainState
  /\ nullish (resp_outputContexts (webhookResponseBody (client Scenario.plainState)))
  /\ exists message,
       addContext (OneContext Sample.sessionContext) Scenario.plainState
       = (Thrown (TypeError message), Scenario.plainState).
Proof.
  destruct (nullish_outbound_fields Scenario.plainState) as [Hadd Hctx].
  split; [by right|]. split; [|split; [by left|]].
  - apply (Hadd (or_intror eq_refl)).
  - apply (Hctx (or_introl eq_refl)).
Defined.

Lemma performAll_adds (responses : list JsValue) (st : State) (ms : list Message) :
  outboundMessages st = Val ms ->
  Forall (fun response => addThrows response = false) responses ->
  (performAll (CallAdd <$> responses) st).1 = Completed
  /\ outboundMessages (performAll (CallAdd <$> responses) st).2
     = Val (ms ++ concat (messagesAdded <$> responses)).
Proof.
  intros Hms Hok. revert st ms Hms.
  induction Hok as [|response responses Hr _ IH]; intros st ms Hms.
  - simpl. by rewrite app_nil_r.
  - destruct (add_pushes response st ms Hms Hr) as [Ho Hm].
    cbn [fmap list_fmap performAll perform].
    destruct (add response st) as [o st1]. simpl in Ho, Hm. subst o.
    cbn [concat]. rewrite app_assoc. by apply IH.
Qed.

Lemma addContext_declared (context : ContextArg) (st : State) (cs : list Context) :
  outboundContexts st = Val cs ->
  isDeclaredContextArg context = true ->
  exists st1, addContext context st = (Completed, st1)
              /\ outboundContexts st1 = Val (cs ++ contextsOf context)
              /\ client st1 = client st.
Proof.
  intros Hcs Hdecl.
  destruct context as [c|items|r]; try discriminate; cbn [addContext contextsOf];
    [destruct (pushContexts_outbound [c] st cs Hcs) as (st1 & H1 & H2 & H3 & _)
    |destruct (pushContexts_outbound items st cs Hcs) as (st1 & H1 & H2 & H3 & _)];
    eauto.
Qed.

Lemma performAll_addContexts (contexts : list ContextArg) (st : State) (cs : list Context) :
  outboundContexts st = Val cs ->
  Forall (fun context => isDeclaredContextArg context = true) contexts ->
  (performAll (CallAddContext <$> contexts) st).1 = Completed
  /\ outboundContexts (performAll (CallAddContext <$> contexts) st).2
     = Val (cs ++ concat (contextsOf <$> contexts)).
Proof.
  intros Hcs Hok. revert st cs Hcs.
  induction Hok as [|context contexts Hdecl _ IH]; intros st cs Hcs.
  - simpl. by rewrite app_nil_r.
  - cbn [fmap list_fmap performAll perform].
    destruct (addContext_declared context st cs Hcs Hdecl) as (st1 & -> & Hout & _).
    cbn [concat]. rewrite app_assoc. by apply IH.
Qed.



(** ** addContext, composed *)

Lemma alter_app_twice (a b : list Context) (l : ref) (m : gmap ref (list Context)) :
  alter (fun cs => cs ++ b) l (alter (fun cs => cs ++ a) l m)
  = alter (fun cs => cs ++ (a ++ b)) l m.
Proof.
  apply map_eq. intros k. destruct (decide (l = k)) as [<-|Hne].
  - rewrite !lookup_alter_eq. destruct (m !! l); simpl; [|done].
    by rewrite app_assoc.
  - by rewrite !lookup_alter_ne.
Qed.

(** Successive [addContext] calls accumulate in call order when the
    outbound context array exists and every argument is of a declared
    kind, a [Context] instance or an array: all the calls return
    normally and the array ends up holding what it held followed by
    each call's records, an instance counting as one record and an
    array as its elements in order. *)
Theorem addContexts_accumulate
    (contexts : list ContextArg) (st : State) (cs : list Context) :
  outboundContexts st = Val cs ->
  Forall (fun context => isDeclaredContextArg context = true) contexts ->
  (performAll (CallAddContext <$> contexts) st).1 = Completed
  /\ outboundContexts (performAll (CallAddContext <$> contexts) st).2
     = Val (cs ++ concat (contextsOf <$> contexts)).
Proof.
  intros Hcs Hok. revert st cs Hcs.
  induction Hok as [|context contexts Hdecl _ IH]; intros st cs Hcs.
  - simpl. by rewrite app_nil_r.
  - cbn [fmap list_fmap performAll perform].
    destruct (addContext_declared context st cs Hcs Hdecl) as (st1 & Hadd & Hout & _).
    rewrite Hadd. cbn [concat]. rewrite app_assoc. by apply IH.
Qed.

Lemma addContexts_accumulate_witness :
  outboundContexts Sample.startState = Val [Sample.sessionContext]
  /\ outboundContexts
       (performAll [CallAddContext (OneContext Sample.followupContext);
                    CallAddContext (ContextArray []);
                    CallAddContext (ContextArray [Sample.sessionContext])]
                   Sample.startState).2
     = Val [Sample.sessionContext; Sample.followupContext; Sample.sessionContext].
Proof.
  split; [reflexivity|].
  refine (proj2 (addContexts_accumulate
                   [OneContext Sample.followupContext; ContextArray [];
                    ContextArray [Sample.sessionContext]]
                   Sample.startState [Sample.sessionContext] eq_refl _)).
  repeat constructor.
Defined.

(** [addContext] of an array does to the whole state, and to the
    outcome, what [addContext] of a first part of the array followed by
    [addContext] of the rest does, in every state: with the array
    present both push the same records in the same order, and without
    it both throw the same TypeError at the first [push]. *)
Theorem addContext_array_splits (a b : list Context) (st : State) :
  addContext (ContextArray (a ++ b)) st
  = performAll [CallAddContext (ContextArray a); CallAddContext (ContextArray b)] st.
Proof.
  cbn [performAll perform addContext]. unfold pushContexts.
  destruct (resp_outputContexts (webhookResponseBody (client st))) as [| |l] eqn:Hl;
    try done.
  cbn [client withContexts webhookResponseBody]. rewrite Hl.
  unfold withContexts. cbn [store client messageArrays contextArrays].
  by rewrite alter_app_twice.
Qed.

(** ** Clearing and the request's own arrays *)

(** [clearFulfillments] and [clearContexts] empty the outbound sequence
    by giving the response a new array; the arrays of the request are
    not emptied, so the [fulfillmentMessages] and [outputContexts]
    getters show after the call what they showed before it. *)
Theorem clear_resets_outbound_only (st : State) :
  inboundAllocated st ->
  (outboundMessages (clearFulfillments st).2 = Val []
   /\ fulfillmentMessagesSeen (clearFulfillments st).2 = fulfillmentMessagesSeen st
   /\ outboundContexts (clearFulfillments st).2 = outboundContexts st)
  /\ (outboundContexts (clearContexts st).2 = Val []
      /\ outputContextsSeen (clearContexts st).2 = outputContextsSeen st
      /\ outboundMessages (clearContexts st).2 = outboundMessages st).
Proof.
  intros Halloc. split.
  - destruct (clearFulfillments_outbound st) as (_ & Hempty & Hctx).
    destruct (clearFulfillments_detaches st Halloc) as [_ Hseen]. done.
  - destruct (clearContexts_outbound st) as (_ & Hempty & Hmsg).
    destruct (clearContexts_detaches st Halloc) as [_ Hseen]. done.
Qed.

Lemma clear_resets_outbound_only_witness :
  inboundAllocated Sample.startState
  /\ outboundMessages (clearFulfillments Sample.startState).2 = Val []
  /\ fulfillmentMessagesSeen (clearFulfillments Sample.startState).2
     = Val [Sample.welcomeCard].
Proof.
  destruct (clear_resets_outbound_only Sample.startState startState_allocated)
    as [(Hempty & Hseen & _) _].
  split; [exact startState_allocated|]. split; [exact Hempty | exact Hseen].
Defined.

(** Whatever the outbound sequences held, after [clearFulfillments] a
    run of [add] calls, none of them with an argument [add] throws on,
    leaves exactly those calls' messages; and after [clearContexts] a
    run of [addContext] calls, each with a [Context] instance or an
    array, leaves exactly those calls' records.  All these calls return
    normally. *)
Theorem clear_then_append (st : State) :
  (forall responses : list JsValue,
      Forall (fun response => addThrows response = false) responses ->
      (performAll (CallClearFulfillments :: (CallAdd <$> responses)) st).1 = Completed
      /\ outboundMessages (performAll (CallClearFulfillments :: (CallAdd <$> responses)) st).2
         = Val (concat (messagesAdded <$> responses)))
  /\ (forall contexts : list ContextArg,
        Forall (fun context => isDeclaredContextArg context = true) contexts ->
        (performAll (CallClearContexts :: (CallAddContext <$> contexts)) st).1 = Completed
        /\ outboundContexts
             (performAll (CallClearContexts :: (CallAddContext <$> contexts)) st).2
           = Val (concat (contextsOf <$> contexts))).
Proof.
  split.
  - intros responses Hok. cbn [performAll perform].
    destruct (clearFulfillments_outbound st) as (_ & Hempty & _).
    exact (performAll_adds responses _ [] Hempty Hok).
  - intros contexts Hok. cbn [performAll perform].
    destruct (clearContexts_outbound st) as (_ & Hempty & _).
    exact (performAll_addContexts contexts _ [] Hempty Hok).
Qed.

Lemma clear_then_append_witness :
  outboundMessages
    (performAll [CallClearFulfillments; CallAdd (JsString "x")] Sample.startState).2
  = Val [TextMessage [JsString "x"]]
  /\ outboundContexts
       (performAll [CallClearContexts; CallAddContext (OneContext Sample.followupContext)]
                   Sample.startState).2
     = Val [Sample.followupContext].
Proof.
  destruct (clear_then_append Sample.startState) as [Hmsg Hctx]. split.
  - refine (proj2 (Hmsg [JsString "x"] _)). repeat constructor.
  - refine (proj2 (Hctx [OneContext Sample.followupContext] _)). repeat constructor.
Defined.

(** ** The request's arrays are the response's arrays *)



(** ** handleRequest: delivery and failure *)

Lemma handleRequest_deliveries (intentMap : IntentMap) (st : State) :
  match (handleRequest intentMap st).1.1 with
  | Completed =>
      deliveries (handleRequest intentMap st).2
      = [serialize (handleRequest intentMap st).1.2]
  | Thrown _ => deliveries (handleRequest intentMap st).2 = []
  end.
Proof.
  unfold handleRequest.
  destruct (getProperty intentMap _) as [[h|]|]; try done.
  pose proof (runHandler_deliveries h st) as Hnone.
  destruct (runHandler h st) as [[[|e] st'] evs]; cbn [fst snd] in *; [|done].
  unfold deliveries in *. rewrite omap_app, Hnone. done.
Qed.

(** Whatever the intent map and the state, [handleRequest] delivers at
    most once: exactly once, with the serialization of the state it
    ends in, when it completes, and not at all when it throws. *)
Theorem handleRequest_delivers_iff_completes (intentMap : IntentMap) (st : State) :
  match (handleRequest intentMap st).1.1 with
  | Completed =>
      deliveries (handleRequest intentMap st).2
      = [serialize (handleRequest intentMap st).1.2]
  | Thrown _ => deliveries (handleRequest intentMap st).2 = []
  end.
Proof.
  unfold handleRequest.
  destruct (getProperty intentMap _) as [[h|]|]; try done.
  - pose proof (runHandler_deliveries h st) as Hnone.
    destruct (runHandler h st) as [[[|e] st'] evs]; cbn [fst snd] in *; [|done].
    unfold deliveries in *. by rewrite omap_app, Hnone.
Qed.

(** When the handler found for the detected intent throws or rejects,
    [handleRequest] fails with the handler's own error, nothing is
    delivered, and the state is the one the handler left, with the
    mutations it made before failing. *)
Theorem handleRequest_propagates_failure
    (intentMap : IntentMap) (st : State) (h : Handler) (e : JsError) :
  getProperty intentMap (toPropertyKey (detectedIntent (client st))) = Some (Function h) ->
  (runHandler h st).1.1 = Thrown e ->
  handleRequest intentMap st = (Thrown e, (runHandler h st).1.2, (runHandler h st).2)
  /\ deliveries (handleRequest intentMap st).2 = [].
Proof.
  intros Hget Hfail. unfold handleRequest. rewrite Hget.
  pose proof (runHandler_deliveries h st) as Hnone.
  destruct (runHandler h st) as [[o st'] evs]. cbn [fst snd] in *. by subst o.
Qed.

Lemma handleRequest_propagates_failure_witness :
  (handleRequest Scenario.failingMap Sample.startState).1.1 = Thrown (TypeError "boom")
  /\ outboundMessages (handleRequest Scenario.failingMap Sample.startState).1.2
     = Val [Sample.welcomeCard; TextMessage [JsString "partial"]]
  /\ deliveries (handleRequest Scenario.failingMap Sample.startState).2 = [].
Proof.
  pose proof (handleRequest_propagates_failure Scenario.failingMap Sample.startState
                (Invoke (CallAdd (JsString "partial")) (Raise (TypeError "boom")))
                (TypeError "boom") eq_refl eq_refl) as [Hrun Hnone].
  split; [|split; [|exact Hnone]].
  - by rewrite Hrun.
  - rewrite Hrun. vm_compute. reflexivity.
Defined.

Lemma runHandler_script (cs : list Call) (st : State) :
  (runHandler (script cs) st).1 = performAll cs st.
Proof.
  revert st. induction cs as [|c cs IH]; intros st; [done|].
  simpl. destruct (perform c st) as [[|e] st1]; [|done].
  specialize (IH st1). by destruct (runHandler (script cs) st1) as [[o st'] evs].
Qed.

(** For a handler that just makes a fixed sequence of calls on the
    agent, [handleRequest] ends as that sequence of calls does, with
    the same outcome and state, and delivers the serialized state when
    the calls all return and nothing when one of them throws. *)
Theorem handleRequest_script (intentMap : IntentMap) (st : State) (cs : list Call) :
  getProperty intentMap (toPropertyKey (detectedIntent (client st)))
  = Some (Function (script cs)) ->
  (handleRequest intentMap st).1 = performAll cs st
  /\ deliveries (handleRequest intentMap st).2
     = match (performAll cs st).1 with
       | Completed => [serialize (performAll cs st).2]
       | Thrown _ => []
       end.
Proof.
  intros Hget.
  pose proof (handleRequest_deliveries intentMap st) as Hdel.
  assert (Hrun : (handleRequest intentMap st).1 = performAll cs st).
  { unfold handleRequest. rewrite Hget. rewrite <- runHandler_script.
    by destruct (runHandler (script cs) st) as [[[|e] st'] evs]. }
  split; [exact Hrun|]. rewrite Hrun in Hdel.
  by destruct (performAll cs st) as [[|e] st'].
Qed.

Lemma handleRequest_script_witness :
  deliveries (handleRequest Scenario.bookingMap Sample.startState).2
  = [ {| sentMessages := Val [Sample.welcomeCard; TextMessage [JsString "Booked"]];
         sentContexts := Val [Sample.sessionContext; Sample.followupContext] |} ].
Proof.
  rewrite (proj2 (handleRequest_script Scenario.bookingMap Sample.startState
                    Scenario.bookingCalls eq_refl)).
  vm_compute. reflexivity.
Defined.

(** A handler that completes without calling any method of the agent,
    however long it waits and whatever it reads, gets the request's
    own messages and contexts delivered back: the payload holds what
    [queryResult.fulfillmentMessages] and [queryResult.outputContexts]
    held, and leaves out the fields the request lacked. *)
Theorem handleRequest_echoes_request
    (b : WebhookRequest) (s : Store) (c : WebhookClient)
    (intentMap : IntentMap) (h : Handler) :
  construct {| body := Val b |} = (Completed, Some c) ->
  getProperty intentMap (toPropertyKey (detectedIntent c)) = Some (Function h) ->
  (runHandler h {| store := s; client := c |}).1.1 = Completed ->
  callsOf (runHandler h {| store := s; client := c |}).2 = [] ->
  deliveries (handleRequest intentMap {| store := s; client := c |}).2
  = [ {| sentMessages := derefMessages s (queryResult b ?. qr_fulfillmentMessages);
         sentContexts := derefContexts s (queryResult b ?. qr_outputContexts) |} ].
Proof.
  intros [= <-] Hget Hok Hcalls.
  set (st := {| store := s; client := _ |}) in *.
  pose proof (runHandler_deliveries h st) as Hnone.
  pose proof (runHandler_calls h st) as [Hstate _].
  rewrite Hcalls in Hstate. simpl in Hstate.
  unfold handleRequest. cbn [client st] in Hget |- *. fold st. rewrite Hget.
  destruct (runHandler h st) as [[o st'] evs]. cbn [fst snd] in *. subst o st'.
  cbn [snd]. unfold deliveries in *. rewrite omap_app, Hnone. done.
Qed.

Lemma handleRequest_echoes_request_witness :
  deliveries (handleRequest Scenario.idleMap
                {| store := Sample.startStore; client := client Sample.startState |}).2
  = [ {| sentMessages := Val [Sample.welcomeCard];
         sentContexts := Val [Sample.sessionContext] |} ].
Proof.
  exact (handleRequest_echoes_request Sample.startBody Sample.startStore
           (client Sample.startState) Scenario.idleMap
           (Await (Inspect (fun _ => Return))) eq_refl eq_refl eq_refl eq_refl).
Defined.

(** When the request carries no intent (no [queryResult], or no
    [intent] in it), the display name read is [undefined] and the
    lookup is made under the key "undefined": a handler registered
    under that name is the one that runs, and its result is delivered. *)
Theorem handleRequest_missing_intent (intentMap : IntentMap) (st : State) (h : Handler) :
  nullish (webhookRequestBody (client st) ?. queryResult ?. qr_intent) ->
  toPropertyKey (detectedIntent (client st)) = "undefined"
  /\ (own intentMap !! "undefined" = Some (Function h) ->
      (handleRequest intentMap st).1 = (runHandler h st).1
      /\ ((runHandler h st).1.1 = Completed ->
          deliveries (handleRequest intentMap st).2
          = [serialize (runHandler h st).1.2])).
Proof.
  intros Hn.
  assert (Hkey : toPropertyKey (detectedIntent (client st)) = "undefined").
  { unfold detectedIntent. by rewrite (optChain_of_nullish _ displayName Hn). }
  split; [exact Hkey|]. intros Hown.
  pose proof (handleRequest_deliveries intentMap st) as Hdel.
  assert (Hrun : (handleRequest intentMap st).1 = (runHandler h st).1).
  { unfold handleRequest, getProperty. rewrite Hkey, Hown.
    by destruct (runHandler h st) as [[[|e] st'] evs]. }
  split; [exact Hrun|]. intros Hok. rewrite Hrun in Hdel. by rewrite Hok in Hdel.
Qed.

Lemma handleRequest_missing_intent_witness :
  nullish (webhookRequestBody (client Sample.bareState) ?. queryResult ?. qr_intent)
  /\ deliveries (handleRequest Scenario.fallbackMap Sample.bareState).2
     = [ {| sentMessages := Undefined; sentContexts := Undefined |} ].
Proof.
  split; [by left|].
  destruct (handleRequest_missing_intent Scenario.fallbackMap Sample.bareState
              (Invoke (CallAdd (JsString "Sorry?")) Return) (or_introl eq_refl))
    as [_ Hrun].
  destruct (Hrun eq_refl) as [_ Hdel]. rewrite (Hdel eq_refl). reflexivity.
Defined.




(** ** Clients of different requests *)

(** The calls made on one client leave alone what another client
    would deliver, as long as the other client's outbound arrays exist
    and are not the arrays the first client's response refers to: no
    call touches an array other than the response's current one. *)
Theorem instances_do_not_interfere (calls : list Call) (st : State) (other : WebhookClient) :
  (forall l, resp_fulfillmentMessages (webhookResponseBody other) = Val l ->
             l ∈ dom (messageArrays (store st))
             /\ resp_fulfillmentMessages (webhookResponseBody (client st)) <> Val l) ->
  (forall l, resp_outputContexts (webhookResponseBody other) = Val l ->
             l ∈ dom (contextArrays (store st))
             /\ resp_outputContexts (webhookResponseBody (client st)) <> Val l) ->
  serialize {| store := store (performAll calls st).2; client := other |}
  = serialize {| store := store st; client := other |}.
Proof.
  intros Hm Hc. destruct (frames_performAll calls st) as (_ & Hfm & Hfc).
  unfold serialize, outboundMessages, outboundContexts, derefMessages, derefContexts.
  cbn [store client]. f_equal.
  - destruct (resp_fulfillmentMessages (webhookResponseBody other)) as [| |l] eqn:Hl;
      try done.
    destruct (Hm l eq_refl) as [Hdom Hne]. destruct (Hfm l Hdom) as [_ Hkeep].
    by destruct (Hkeep Hne) as [-> _].
  - destruct (resp_outputContexts (webhookResponseBody other)) as [| |l] eqn:Hl;
      try done.
    destruct (Hc l eq_refl) as [Hdom Hne]. destruct (Hfc l Hdom) as [_ Hkeep].
    by destruct (Hkeep Hne) as [-> _].
Qed.

Lemma instances_do_not_interfere_witness :
  serialize
    {| store := store (performAll [CallAdd (JsString "mine"); CallClearContexts;
                                   CallAddContext (OneContext Sample.sessionContext)]
                                  Scenario.firstState).2;
       client := Scenario.otherClient |}
  = {| sentMessages := Val [Scenario.otherCard];
       sentContexts := Val [Sample.followupContext] |}.
Proof.
  rewrite (instances_do_not_interfere
             [CallAdd (JsString "mine"); CallClearContexts;
              CallAddContext (OneContext Sample.sessionContext)]
             Scenario.firstState Scenario.otherClient).
  - reflexivity.
  - intros l [= <-]. split; [|discriminate].
    apply elem_of_dom. eexists. reflexivity.
  - intros l [= <-]. split; [|discriminate].
    apply elem_of_dom. eexists. reflexivity.
Defined.
